(** * roslibjs: the TF client (src/tf/TFClient.js)

    A shallow embedding of [TFClient] and of the collaborators it drives
    (the timer queue, the service client and the republisher topics),
    followed by the properties of its subscription protocol.

    Conventions of the embedding.
    - JavaScript numbers are IEEE binary64 values: Rocq's primitive [float].
    - The object [frameInfos] is used as a map from frame ids to frame
      records.  It is an association list in insertion order, because
      [updateGoal] enumerates it with [for ... in].
    - A callback is a function reference: it is identified by a number, and
      calling it is recorded as an [Invoke] effect.
    - A method is a computation over the world (the client object [this]
      and the environment) that also produces the list of effects it
      performed, in order.

    The embedding has two layers.  The first reads [frameInfos[k]] as an own
    property and takes callbacks that only receive their transform; it
    carries the invariants of the event loop.  The second, [Full], is the
    code as it runs: [frameInfos[k]] also finds the properties inherited from
    [Object.prototype] (using such a value raises a TypeError), callbacks may
    call the client or throw while it is running, and [forEach] walks the
    live array of callbacks.  The two layers agree wherever no inherited
    name is used and the callbacks called do nothing to the client. *)

From Stdlib Require Import String Ascii List ZArith NArith Bool Lia PrimFloat.
From Stdlib Require Import Permutation.
Import ListNotations.
Open Scope string_scope.
Open Scope list_scope.

Set Implicit Arguments.
Set Warnings "-inexact-float".

(** ** JavaScript values used by the client *)

Module Js.

(** [x || d] on a number: [0], [-0] and [NaN] are falsy. *)
Definition truthy_num (x : float) : bool := negb (is_zero x || is_nan x).

(** [s || d] on a string: only the empty string is falsy. *)
Definition truthy_str (s : string) : bool :=
  match s with EmptyString => false | String _ _ => true end.

(** [options.k || d] for a numeric option; [None] is [undefined]. *)
Definition or_num (o : option float) (d : float) : float :=
  match o with
  | Some x => if truthy_num x then x else d
  | None => d
  end.

Definition or_str (o : option string) (d : string) : string :=
  match o with
  | Some s => if truthy_str s then s else d
  | None => d
  end.

(** [Math.floor].  A binary64 value of magnitude at least [2^52] is an
    integer already; below that, adding and removing [2^52] rounds to a
    neighbouring integer, which is then corrected downwards. *)
Definition Math_floor (x : float) : float :=
  if is_nan x then x
  else if (abs x <? 0x1p52)%float then
    if is_zero x then x
    else if (0 <? x)%float then
      let r := ((x + 0x1p52) - 0x1p52)%float in
      if (x <? r)%float then (r - 1)%float else r
    else
      let r := ((x - 0x1p52) + 0x1p52)%float in
      if (x <? r)%float then (r - 1)%float else r
  else x.

(** [s[0] === '/'] *)
Definition starts_with_slash (s : string) : bool :=
  match s with
  | String c _ => Ascii.eqb c "/"
  | EmptyString => false
  end.

(** [s.substring(1)] *)
Definition substring1 (s : string) : string :=
  match s with
  | String _ rest => rest
  | EmptyString => EmptyString
  end.

(** [a.indexOf(x)] on an array of function references: the index of the
    first element identical to [x], or [-1]. *)
Fixpoint indexOf (a : list nat) (x : nat) : Z :=
  match a with
  | [] => (-1)%Z
  | y :: a' =>
      if Nat.eqb y x then 0%Z
      else let i := indexOf a' x in
           if (i <? 0)%Z then (-1)%Z else (i + 1)%Z
  end.

(** [a.splice(i, 1)] for an index [i] inside the array: the array
    without its [i]-th element. *)
Fixpoint splice1 {A : Type} (i : nat) (a : list A) : list A :=
  match a, i with
  | [], _ => []
  | _ :: a', O => a'
  | y :: a', S i' => y :: splice1 i' a'
  end.

End Js.

(** ** A JavaScript object used as a map with string keys *)

Module JsObject.

Section Store.
Variable V : Type.

Definition t := list (string * V).

Definition empty : t := [].

(** [o[k]] among the own properties of [o]; [None] when [o] has no own
    property [k].  The properties [o] inherits are added by [Full.lookup]. *)
Fixpoint get (o : t) (k : string) : option V :=
  match o with
  | [] => None
  | (k', v) :: o' => if String.eqb k' k then Some v else get o' k
  end.

(** [o[k] = v]: an existing property keeps its place, a new one is
    added last. *)
Fixpoint set (o : t) (k : string) (v : V) : t :=
  match o with
  | [] => [(k, v)]
  | (k', v') :: o' =>
      if String.eqb k' k then (k', v) :: o' else (k', v') :: set o' k v
  end.

(** [delete o[k]] *)
Fixpoint delete (o : t) (k : string) : t :=
  match o with
  | [] => []
  | (k', v') :: o' =>
      if String.eqb k' k then delete o' k else (k', v') :: delete o' k
  end.

(** The own property names, in creation order. *)
Definition keys (o : t) : list string := map fst o.

End Store.

(** *** Enumeration order of [for (k in o)]

    Property names that are canonical array indices come first, in
    ascending numeric order; the other names follow in creation order. *)

Definition digit (c : ascii) : option N :=
  let n := N_of_ascii c in
  if ((48 <=? n) && (n <=? 57))%N then Some (n - 48)%N else None.

Fixpoint digits (s : string) (acc : N) : option N :=
  match s with
  | EmptyString => Some acc
  | String c s' =>
      match digit c with
      | Some d => digits s' (10 * acc + d)%N
      | None => None
      end
  end.

Definition array_index (s : string) : option N :=
  match s with
  | EmptyString => None
  | String c rest =>
      if Ascii.eqb c "0" then
        match rest with EmptyString => Some 0%N | _ => None end
      else
        match digits s 0 with
        | Some n => if (n <? 4294967295)%N then Some n else None
        | None => None
        end
  end.

Fixpoint insert_index (p : N * string) (l : list (N * string)) : list (N * string) :=
  match l with
  | [] => [p]
  | q :: l' => if (fst p <=? fst q)%N then p :: l else q :: insert_index p l'
  end.

Fixpoint index_keys (ks : list string) : list (N * string) :=
  match ks with
  | [] => []
  | k :: ks' =>
      match array_index k with
      | Some n => insert_index (n, k) (index_keys ks')
      | None => index_keys ks'
      end
  end.

Definition is_index (k : string) : bool :=
  match array_index k with Some _ => true | None => false end.

Definition for_in {V : Type} (o : t V) : list string :=
  map snd (index_keys (keys o)) ++ filter (fun k => negb (is_index k)) (keys o).

End JsObject.

(** ** Messages exchanged with the republisher *)

Module Geometry.
Record Vector3 := { x : float; y : float; z : float }.
Record Quaternion := { qx : float; qy : float; qz : float; qw : float }.
End Geometry.

(** Modelled from the spec: [Transform] (src/math/Transform.js) is not part
    of the sources at hand.  The spec describes it as a plain value made of
    a translation (three numeric components) and a rotation (a quaternion,
    four numeric components), constructed from the decoded fields of an
    update. *)
Record Transform := {
  translation : Geometry.Vector3;
  rotation : Geometry.Quaternion
}.

Module Msg.

Record Time := { secs : float; nsecs : float }.

(** The request of tf2_web_republisher/RepublishTFs. *)
Record ServiceRequest := {
  source_frames : list string;
  target_frame : string;
  angular_thres : float;
  trans_thres : float;
  rate : float;
  timeout : Time
}.

Record Response := { topic_name : string }.

Record Pose := {
  translation : Geometry.Vector3;
  rotation : Geometry.Quaternion
}.

Record TransformStamped := {
  child_frame_id : string;
  transform : Pose
}.

(** A message of tf2_web_republisher/TFArray. *)
Record TFArray := { transforms : list TransformStamped }.

(** [request.source_frames.push(frame)] *)
Definition push_source_frame (r : ServiceRequest) (frame : string) : ServiceRequest :=
  {| source_frames := source_frames r ++ [frame];
     target_frame := target_frame r;
     angular_thres := angular_thres r;
     trans_thres := trans_thres r;
     rate := rate r;
     timeout := timeout r |}.

End Msg.

(** ** The collaborators: connection, service client, topics *)

(** A callback is a function reference. *)
Definition Callback := nat.

Inductive Ros := Connection (id : nat).

Record Service := { service_name : string; serviceType : string }.

(** A topic object; [topic_id] is its identity (every [ros.Topic(...)]
    makes a new object). *)
Record Topic := { topic_id : nat; name : string; messageType : string }.

Module Options.
(** The [options] argument of the constructor; [None] is a key that is
    absent. *)
Record t := {
  ros : option Ros;
  fixedFrame : option string;
  angularThres : option float;
  transThres : option float;
  rate : option float;
  goalUpdateDelay : option float;
  topicTimeout : option float
}.

(** [{}] *)
Definition empty : t :=
  {| ros := None; fixedFrame := None; angularThres := None;
     transThres := None; rate := None; goalUpdateDelay := None;
     topicTimeout := None |}.

(** [{ ros : r }] *)
Definition defaults (r : Ros) : t :=
  {| ros := Some r; fixedFrame := None; angularThres := None;
     transThres := None; rate := None; goalUpdateDelay := None;
     topicTimeout := None |}.
End Options.

(** ** The client object *)

(** The value stored under a frame id: [{ cbs : [...], transform : ... }];
    [transform] is absent until the first update. *)
Record FrameInfo := {
  cbs : list Callback;
  transform : option Transform
}.

Record TFClient := {
  ros : Ros;
  fixedFrame : string;
  angularThres : float;
  transThres : float;
  rate : float;
  goalUpdateDelay : float;
  topicTimeout : Msg.Time;
  currentTopic : option Topic;       (* [false] or a topic *)
  frameInfos : JsObject.t FrameInfo;
  goalUpdateRequested : bool;
  serviceClient : Service;
  needUpdate : option bool           (* absent until [unsubscribe] sets it *)
}.

Definition set_currentTopic (c : TFClient) (v : option Topic) : TFClient :=
  {| ros := ros c; fixedFrame := fixedFrame c; angularThres := angularThres c;
     transThres := transThres c; rate := rate c;
     goalUpdateDelay := goalUpdateDelay c; topicTimeout := topicTimeout c;
     currentTopic := v; frameInfos := frameInfos c;
     goalUpdateRequested := goalUpdateRequested c;
     serviceClient := serviceClient c; needUpdate := needUpdate c |}.

Definition set_frameInfos (c : TFClient) (v : JsObject.t FrameInfo) : TFClient :=
  {| ros := ros c; fixedFrame := fixedFrame c; angularThres := angularThres c;
     transThres := transThres c; rate := rate c;
     goalUpdateDelay := goalUpdateDelay c; topicTimeout := topicTimeout c;
     currentTopic := currentTopic c; frameInfos := v;
     goalUpdateRequested := goalUpdateRequested c;
     serviceClient := serviceClient c; needUpdate := needUpdate c |}.

Definition set_goalUpdateRequested (c : TFClient) (v : bool) : TFClient :=
  {| ros := ros c; fixedFrame := fixedFrame c; angularThres := angularThres c;
     transThres := transThres c; rate := rate c;
     goalUpdateDelay := goalUpdateDelay c; topicTimeout := topicTimeout c;
     currentTopic := currentTopic c; frameInfos := frameInfos c;
     goalUpdateRequested := v;
     serviceClient := serviceClient c; needUpdate := needUpdate c |}.

Definition set_needUpdate (c : TFClient) (v : option bool) : TFClient :=
  {| ros := ros c; fixedFrame := fixedFrame c; angularThres := angularThres c;
     transThres := transThres c; rate := rate c;
     goalUpdateDelay := goalUpdateDelay c; topicTimeout := topicTimeout c;
     currentTopic := currentTopic c; frameInfos := frameInfos c;
     goalUpdateRequested := goalUpdateRequested c;
     serviceClient := serviceClient c; needUpdate := v |}.

(** The constructor.  Without a connection, [this.ros.Service] raises a
    TypeError: the result is [None]. *)
Definition new_TFClient (options : option Options.t) : option TFClient :=
  let options := match options with Some o => o | None => Options.empty end in
  let seconds := Js.or_num (Options.topicTimeout options) 2 in
  let secs := Js.Math_floor seconds in
  let nsecs := Js.Math_floor ((seconds - secs) * 1000000000)%float in
  match Options.ros options with
  | Some r =>
      Some {| ros := r;
              fixedFrame := Js.or_str (Options.fixedFrame options) "/base_link";
              angularThres := Js.or_num (Options.angularThres options) 2;
              transThres := Js.or_num (Options.transThres options) 0.01;
              rate := Js.or_num (Options.rate options) 10;
              goalUpdateDelay := Js.or_num (Options.goalUpdateDelay options) 50;
              topicTimeout := {| Msg.secs := secs; Msg.nsecs := nsecs |};
              currentTopic := None;
              frameInfos := JsObject.empty FrameInfo;
              goalUpdateRequested := false;
              serviceClient :=
                {| service_name := "/republish_tfs";
                   serviceType := "tf2_web_republisher/RepublishTFs" |};
              needUpdate := None |}
  | None => None
  end.

(** ** The environment and the effects of a method *)

Record Env := {
  timers : list float;               (* delays of the scheduled [updateGoal] calls *)
  calls : list Msg.ServiceRequest;   (* service calls still without a response *)
  listening : list Topic;            (* topics that deliver to [processFeedback] *)
  topics_made : nat                  (* number of topic objects created so far *)
}.

Definition empty_env : Env :=
  {| timers := []; calls := []; listening := []; topics_made := 0 |}.

Record World := { this : TFClient; env : Env }.

Inductive Effect :=
| SetTimeout (delay : float)
| CallService (srv : Service) (request : Msg.ServiceRequest)
| NewTopic (t : Topic)
| TopicSubscribe (t : Topic)
| TopicUnsubscribe (t : Topic)
| Invoke (cb : Callback) (tr : Transform).

Definition M (A : Type) : Type := World -> A * World * list Effect.

Definition ret {A : Type} (a : A) : M A := fun w => (a, w, []).

Definition bind {A B : Type} (m : M A) (f : A -> M B) : M B :=
  fun w =>
    let '(a, w1, e1) := m w in
    let '(b, w2, e2) := f a w1 in
    (b, w2, e1 ++ e2).

Notation "x <- m ;; k" := (bind m (fun x => k))
  (at level 61, m at next level, right associativity).
Notation "m ;; k" := (bind m (fun _ => k))
  (at level 61, right associativity).

Definition get_this : M TFClient := fun w => (this w, w, []).

Definition update_this (f : TFClient -> TFClient) : M unit :=
  fun w => (tt, {| this := f (this w); env := env w |}, []).

(** [a.forEach(f)] *)
Fixpoint forEach {A : Type} (a : list A) (f : A -> M unit) : M unit :=
  match a with
  | [] => ret tt
  | v :: a' => f v ;; forEach a' f
  end.

(** [setTimeout(this.updateGoal.bind(this), delay)] *)
Definition setTimeout (delay : float) : M unit :=
  fun w =>
    (tt,
     {| this := this w;
        env := {| timers := timers (env w) ++ [delay]; calls := calls (env w);
                  listening := listening (env w);
                  topics_made := topics_made (env w) |} |},
     [SetTimeout delay]).

(** [srv.callService(request, this.processResponse.bind(this))] *)
Definition callService (srv : Service) (request : Msg.ServiceRequest) : M unit :=
  fun w =>
    (tt,
     {| this := this w;
        env := {| timers := timers (env w); calls := calls (env w) ++ [request];
                  listening := listening (env w);
                  topics_made := topics_made (env w) |} |},
     [CallService srv request]).

(** [this.ros.Topic({ name : n, messageType : ty })] *)
Definition ros_Topic (n ty : string) : M Topic :=
  fun w =>
    let t := {| topic_id := topics_made (env w); name := n; messageType := ty |} in
    (t,
     {| this := this w;
        env := {| timers := timers (env w); calls := calls (env w);
                  listening := listening (env w);
                  topics_made := S (topics_made (env w)) |} |},
     [NewTopic t]).

(** [t.subscribe(this.processFeedback.bind(this))] *)
Definition Topic_subscribe (t : Topic) : M unit :=
  fun w =>
    (tt,
     {| this := this w;
        env := {| timers := timers (env w); calls := calls (env w);
                  listening := listening (env w) ++ [t];
                  topics_made := topics_made (env w) |} |},
     [TopicSubscribe t]).

(** [t.unsubscribe()] *)
Definition Topic_unsubscribe (t : Topic) : M unit :=
  fun w =>
    (tt,
     {| this := this w;
        env := {| timers := timers (env w); calls := calls (env w);
                  listening :=
                    filter (fun u => negb (Nat.eqb (topic_id u) (topic_id t)))
                           (listening (env w));
                  topics_made := topics_made (env w) |} |},
     [TopicUnsubscribe t]).

(** [cb(tr)] *)
Definition call (cb : Callback) (tr : Transform) : M unit :=
  fun w => (tt, w, [Invoke cb tr]).

(** ** The methods of [TFClient.prototype] *)

(** [if (frameID[0] === '/') { frameID = frameID.substring(1); }] *)
Definition remove_leading_slash (frameID : string) : string :=
  if Js.starts_with_slash frameID then Js.substring1 frameID else frameID.

(** [new Transform({ translation : ..., rotation : ... })] *)
Definition new_Transform (p : Msg.Pose) : Transform :=
  {| translation := Msg.translation p; rotation := Msg.rotation p |}.

(** The body of the [forEach] of [processFeedback], for one update, when the
    frame id names no inherited property and the callbacks only receive
    their transform; [Full.processTransform] has the inherited names and the
    walk over the live array. *)
Definition processTransform (transform : Msg.TransformStamped) : M unit :=
  let frameID := remove_leading_slash (Msg.child_frame_id transform) in
  that <- get_this ;;
  match JsObject.get (frameInfos that) frameID with
  | Some info =>
      let tr := new_Transform (Msg.transform transform) in
      update_this (fun c =>
        set_frameInfos c
          (JsObject.set (frameInfos c) frameID
             {| cbs := cbs info; transform := Some tr |})) ;;
      forEach (cbs info) (fun cb => call cb tr)
  | None => ret tt
  end.

Definition processFeedback (tf : Msg.TFArray) : M unit :=
  forEach (Msg.transforms tf) processTransform.

Definition updateGoal : M unit :=
  c <- get_this ;;
  let request :=
    {| Msg.source_frames := [];
       Msg.target_frame := fixedFrame c;
       Msg.angular_thres := angularThres c;
       Msg.trans_thres := transThres c;
       Msg.rate := rate c;
       Msg.timeout := topicTimeout c |} in
  let request :=
    fold_left Msg.push_source_frame (JsObject.for_in (frameInfos c)) request in
  callService (serviceClient c) request ;;
  update_this (fun c => set_goalUpdateRequested c false).

Definition processResponse (response : Msg.Response) : M unit :=
  c <- get_this ;;
  match currentTopic c with
  | Some old => Topic_unsubscribe old
  | None => ret tt
  end ;;
  t <- ros_Topic (Msg.topic_name response) "tf2_web_republisher/TFArray" ;;
  update_this (fun c => set_currentTopic c (Some t)) ;;
  Topic_subscribe t.

(** [subscribe] and [unsubscribe] for frame ids that name no inherited
    property; [Full.subscribe] and [Full.unsubscribe] have those too. *)
Definition subscribe (frameID : string) (callback : Callback) : M unit :=
  let frameID := remove_leading_slash frameID in
  c <- get_this ;;
  match JsObject.get (frameInfos c) frameID with
  | None =>
      update_this (fun c =>
        set_frameInfos c
          (JsObject.set (frameInfos c) frameID {| cbs := []; transform := None |})) ;;
      c <- get_this ;;
      if negb (goalUpdateRequested c) then
        setTimeout (goalUpdateDelay c) ;;
        update_this (fun c => set_goalUpdateRequested c true)
      else ret tt
  | Some info =>
      match transform info with
      | Some tr => call callback tr
      | None => ret tt
      end
  end ;;
  c <- get_this ;;
  match JsObject.get (frameInfos c) frameID with
  | Some info =>
      update_this (fun c =>
        set_frameInfos c
          (JsObject.set (frameInfos c) frameID
             {| cbs := cbs info ++ [callback]; transform := transform info |}))
  | None => ret tt
  end.

Definition unsubscribe (frameID : string) (callback : Callback) : M unit :=
  let frameID := remove_leading_slash frameID in
  c <- get_this ;;
  match JsObject.get (frameInfos c) frameID with
  | Some info =>
      let cbIndex := Js.indexOf (cbs info) callback in
      if (0 <=? cbIndex)%Z then
        let cbs' := Js.splice1 (Z.to_nat cbIndex) (cbs info) in
        update_this (fun c =>
          set_frameInfos c
            (JsObject.set (frameInfos c) frameID
               {| cbs := cbs'; transform := transform info |})) ;;
        (if Nat.eqb (length cbs') 0 then
           update_this (fun c =>
             set_frameInfos c (JsObject.delete (frameInfos c) frameID))
         else ret tt) ;;
        update_this (fun c => set_needUpdate c (Some true))
      else ret tt
  | None => ret tt
  end.

(** ** The event loop: what can happen to a client *)

Definition exec (m : M unit) (w : World) : World * list Effect :=
  let '(_, w', e) := m w in (w', e).

Inductive Input :=
| Subscribe (frameID : string) (callback : Callback)     (* the application calls [subscribe] *)
| Unsubscribe (frameID : string) (callback : Callback)   (* the application calls [unsubscribe] *)
| TimerFires                                             (* the oldest scheduled timeout runs *)
| ServiceResponds (i : nat) (response : Msg.Response)    (* the [i]-th open call is answered *)
| TopicDelivers (t : Topic) (tf : Msg.TFArray).          (* a subscribed topic delivers a message *)

Definition set_timers (e : Env) (v : list float) : Env :=
  {| timers := v; calls := calls e; listening := listening e;
     topics_made := topics_made e |}.

Definition set_calls (e : Env) (v : list Msg.ServiceRequest) : Env :=
  {| timers := timers e; calls := v; listening := listening e;
     topics_made := topics_made e |}.

Definition is_listening (e : Env) (t : Topic) : bool :=
  existsb (fun u => Nat.eqb (topic_id u) (topic_id t)) (listening e).

(** One turn of the event loop; [None] when the event cannot happen in [w]. *)
Definition step (i : Input) (w : World) : option (World * list Effect) :=
  match i with
  | Subscribe frameID callback => Some (exec (subscribe frameID callback) w)
  | Unsubscribe frameID callback => Some (exec (unsubscribe frameID callback) w)
  | TimerFires =>
      match timers (env w) with
      | _ :: rest =>
          Some (exec updateGoal {| this := this w; env := set_timers (env w) rest |})
      | [] => None
      end
  | ServiceResponds i response =>
      if Nat.ltb i (length (calls (env w))) then
        Some (exec (processResponse response)
                {| this := this w;
                   env := set_calls (env w) (Js.splice1 i (calls (env w))) |})
      else None
  | TopicDelivers t tf =>
      if is_listening (env w) t then Some (exec (processFeedback tf) w) else None
  end.

Fixpoint run (inputs : list Input) (w : World) : option (World * list Effect) :=
  match inputs with
  | [] => Some (w, [])
  | i :: rest =>
      match step i w with
      | Some (w1, e1) =>
          match run rest w1 with
          | Some (w2, e2) => Some (w2, e1 ++ e2)
          | None => None
          end
      | None => None
      end
  end.

(** The world right after [new TFClient(options)]. *)
Definition boot (options : option Options.t) : option World :=
  match new_TFClient options with
  | Some c => Some {| this := c; env := empty_env |}
  | None => None
  end.

Inductive reachable : World -> Prop :=
| reach_boot options w :
    boot options = Some w -> reachable w
| reach_step w i w' e :
    reachable w -> step i w = Some (w', e) -> reachable w'.

(** ** The client with inherited properties, live arrays and callbacks that act

    The definitions above read [frameInfos[k]] as an own property and record a
    callback as an effect.  [Full] adds what that leaves out of the source:
    - [frameInfos] is a plain object, so [frameInfos[k]] also finds the
      members of [Object.prototype]; such a value has no [cbs], and using it
      raises a TypeError;
    - a callback is a program: it may call [subscribe] and [unsubscribe] of
      the client, or throw, while the client is running;
    - [info.cbs.forEach] walks the array as it is at each index, not as it was
      at the start; the record that [info] names is identified by a number,
      because its key can be deleted and created again meanwhile. *)

Module Full.

(** What a callback does when it runs. *)
Inductive Call :=
| CallSubscribe (frameID : string) (callback : Callback)
| CallUnsubscribe (frameID : string) (callback : Callback)
| Throw.

(** The property names every object inherits from [Object.prototype]. *)
Definition prototype_names : list string :=
  ["constructor"; "toString"; "toLocaleString"; "valueOf"; "hasOwnProperty";
   "isPrototypeOf"; "propertyIsEnumerable"; "__defineGetter__";
   "__defineSetter__"; "__lookupGetter__"; "__lookupSetter__"; "__proto__"].

Definition inherited (k : string) : bool := existsb (String.eqb k) prototype_names.

Record State := {
  base : World;
  ids : JsObject.t nat;              (* the identity of the record under each key *)
  ids_made : nat;                    (* number of records created so far *)
  fn_transform : JsObject.t Transform  (* [transform] set on an inherited function *)
}.

(** The value of [this.frameInfos[k]]. *)
Inductive Lookup :=
| Own (info : FrameInfo)
| Inherited
| Undefined.

Definition lookup (s : State) (k : string) : Lookup :=
  match JsObject.get (frameInfos (this (base s))) k with
  | Some info => Own info
  | None => if inherited k then Inherited else Undefined
  end.

(** Why the model stops. *)
Inductive Stop :=
| OutOfFuel            (* callbacks nest deeper than the bound *)
| PrototypeModified    (* [Object.prototype] itself was assigned to *)
| NotEnabled.          (* the event cannot happen *)

Inductive Res (A : Type) :=
| Val (a : A) (s : State) (e : list Effect)   (* returns *)
| Exc (s : State) (e : list Effect)           (* an exception propagates *)
| Halt (r : Stop).

Arguments Val {A} a s e.
Arguments Exc {A} s e.
Arguments Halt {A} r.

Definition Comp (A : Type) : Type := State -> Res A.

Definition ret {A : Type} (a : A) : Comp A := fun s => Val a s [].

Definition bind {A B : Type} (m : Comp A) (f : A -> Comp B) : Comp B :=
  fun s =>
    match m s with
    | Val a s1 e1 =>
        match f a s1 with
        | Val b s2 e2 => Val b s2 (e1 ++ e2)
        | Exc s2 e2 => Exc s2 (e1 ++ e2)
        | Halt r => Halt r
        end
    | Exc s1 e1 => Exc s1 e1
    | Halt r => Halt r
    end.

Definition seq {A : Type} (m : Comp unit) (k : Comp A) : Comp A := bind m (fun _ => k).

Definition get_state : Comp State := fun s => Val s s [].

Definition raise {A : Type} : Comp A := fun s => Exc s [].

Definition halt {A : Type} (r : Stop) : Comp A := fun _ => Halt r.

Definition set_base (s : State) (b : World) : State :=
  {| base := b; ids := ids s; ids_made := ids_made s; fn_transform := fn_transform s |}.

(** A computation of the methods above, run on [base]. *)
Definition lift (m : M unit) : Comp unit :=
  fun s => let '(_, b, e) := m (base s) in Val tt (set_base s b) e.

(** [this.frameInfos[k] = info] for an existing record, or [info.p = v]. *)
Definition write_frame (k : string) (info : FrameInfo) : Comp unit :=
  lift (update_this (fun c => set_frameInfos c (JsObject.set (frameInfos c) k info))).

(** [this.frameInfos[k] = { cbs : [] }]: a new record. *)
Definition new_frame (k : string) : Comp unit :=
  fun s =>
    Val tt
        {| base := {| this := set_frameInfos (this (base s))
                                (JsObject.set (frameInfos (this (base s))) k
                                   {| cbs := []; transform := None |});
                      env := env (base s) |};
           ids := JsObject.set (ids s) k (ids_made s);
           ids_made := S (ids_made s);
           fn_transform := fn_transform s |}
        [].

(** [delete this.frameInfos[k]] *)
Definition delete_frame (k : string) : Comp unit :=
  fun s =>
    Val tt
        {| base := {| this := set_frameInfos (this (base s))
                                (JsObject.delete (frameInfos (this (base s))) k);
                      env := env (base s) |};
           ids := JsObject.delete (ids s) k;
           ids_made := ids_made s;
           fn_transform := fn_transform s |}
        [].

(** [f.transform = tr] on the inherited function named [k]. *)
Definition set_fn_transform (k : string) (tr : Transform) : Comp unit :=
  fun s =>
    Val tt
        {| base := base s; ids := ids s; ids_made := ids_made s;
           fn_transform := JsObject.set (fn_transform s) k tr |}
        [].

(** [v.transform] for the inherited value named [k]; [Object.prototype]
    itself has none as long as it was not assigned to. *)
Definition inherited_transform (s : State) (k : string) : option Transform :=
  if String.eqb k "__proto__" then None else JsObject.get (fn_transform s) k.

(** The array [info.cbs] as it is now, for the record [info] that was under
    key [k] with identity [id]: empty once that record was deleted. *)
Definition live_cbs (s : State) (k : string) (id : option nat) : list Callback :=
  match JsObject.get (frameInfos (this (base s))) k with
  | Some info =>
      match JsObject.get (ids s) k, id with
      | Some a, Some b => if Nat.eqb a b then cbs info else []
      | None, None => cbs info
      | _, _ => []
      end
  | None => []
  end.

Section Methods.

(** [cb(tr)]: the call of a callback, whatever it does. *)
Variable invoke : Callback -> Transform -> Comp unit.

(** [info.cbs.forEach(function(cb) { cb(info.transform); })] from index [i],
    with [rem] indices left of the length the array had at the start. *)
Fixpoint forEach_live (k : string) (id : option nat) (tr : Transform)
    (rem i : nat) : Comp unit :=
  match rem with
  | O => ret tt
  | S rem' =>
      bind get_state (fun s =>
        match nth_error (live_cbs s k id) i with
        | Some cb => seq (invoke cb tr) (forEach_live k id tr rem' (S i))
        | None => forEach_live k id tr rem' (S i)
        end)
  end.

Definition processTransform (transform : Msg.TransformStamped) : Comp unit :=
  let frameID := remove_leading_slash (Msg.child_frame_id transform) in
  let tr := new_Transform (Msg.transform transform) in
  bind get_state (fun s =>
    match lookup s frameID with
    | Own info =>
        seq (write_frame frameID {| cbs := cbs info; transform := Some tr |})
            (forEach_live frameID (JsObject.get (ids s) frameID) tr
               (length (cbs info)) 0)
    | Inherited =>
        if String.eqb frameID "__proto__" then halt PrototypeModified
        else seq (set_fn_transform frameID tr) raise
    | Undefined => ret tt
    end).

(** [tf.transforms.forEach(...)]: an exception ends it. *)
Fixpoint processUpdates (us : list Msg.TransformStamped) : Comp unit :=
  match us with
  | [] => ret tt
  | u :: us' => seq (processTransform u) (processUpdates us')
  end.

Definition processFeedback (tf : Msg.TFArray) : Comp unit :=
  processUpdates (Msg.transforms tf).

Definition subscribe (frameID : string) (callback : Callback) : Comp unit :=
  let frameID := remove_leading_slash frameID in
  seq
    (bind get_state (fun s =>
       match lookup s frameID with
       | Undefined =>
           seq (new_frame frameID)
               (bind get_state (fun s =>
                  if negb (goalUpdateRequested (this (base s))) then
                    seq (lift (setTimeout (goalUpdateDelay (this (base s)))))
                        (lift (update_this (fun c => set_goalUpdateRequested c true)))
                  else ret tt))
       | Own info =>
           match transform info with
           | Some tr => invoke callback tr
           | None => ret tt
           end
       | Inherited =>
           match inherited_transform s frameID with
           | Some tr => invoke callback tr
           | None => ret tt
           end
       end))
    (bind get_state (fun s =>
       match lookup s frameID with
       | Own info =>
           write_frame frameID
             {| cbs := cbs info ++ [callback]; transform := transform info |}
       | Inherited => raise      (* [cbs] is undefined *)
       | Undefined => raise      (* the record was deleted by the callback *)
       end)).

Definition unsubscribe (frameID : string) (callback : Callback) : Comp unit :=
  let frameID := remove_leading_slash frameID in
  bind get_state (fun s =>
    match lookup s frameID with
    | Own info =>
        let cbIndex := Js.indexOf (cbs info) callback in
        if (0 <=? cbIndex)%Z then
          let cbs' := Js.splice1 (Z.to_nat cbIndex) (cbs info) in
          seq (write_frame frameID {| cbs := cbs'; transform := transform info |})
            (seq (if Nat.eqb (length cbs') 0 then delete_frame frameID else ret tt)
                 (lift (update_this (fun c => set_needUpdate c (Some true)))))
        else ret tt
    | Inherited => raise        (* [info.cbs] is undefined *)
    | Undefined => ret tt
    end).

(** The calls a callback makes, in order. *)
Fixpoint perform (calls : list Call) : Comp unit :=
  match calls with
  | [] => ret tt
  | CallSubscribe f cb :: rest => seq (subscribe f cb) (perform rest)
  | CallUnsubscribe f cb :: rest => seq (unsubscribe f cb) (perform rest)
  | Throw :: _ => raise
  end.

End Methods.

(** The call of a callback whose program is [body cb tr]; [n] bounds how
    deep the calls of callbacks nest. *)
Fixpoint call_back (body : Callback -> Transform -> list Call) (n : nat)
    (cb : Callback) (tr : Transform) : Comp unit :=
  match n with
  | O => halt OutOfFuel
  | S n' =>
      seq (fun s => Val tt s [Invoke cb tr])
          (perform (call_back body n') (body cb tr))
  end.

(** One turn of the event loop. *)
Definition step (body : Callback -> Transform -> list Call) (n : nat)
    (i : Input) : Comp unit :=
  match i with
  | Subscribe frameID callback => subscribe (call_back body n) frameID callback
  | Unsubscribe frameID callback => unsubscribe frameID callback
  | TimerFires =>
      fun s =>
        match timers (env (base s)) with
        | _ :: rest =>
            lift updateGoal
              (set_base s {| this := this (base s);
                             env := set_timers (env (base s)) rest |})
        | [] => Halt NotEnabled
        end
  | ServiceResponds i response =>
      fun s =>
        if Nat.ltb i (length (calls (env (base s)))) then
          lift (processResponse response)
            (set_base s {| this := this (base s);
                           env := set_calls (env (base s))
                                    (Js.splice1 i (calls (env (base s)))) |})
        else Halt NotEnabled
  | TopicDelivers t tf =>
      fun s =>
        if is_listening (env (base s)) t
        then processFeedback (call_back body n) tf s
        else Halt NotEnabled
  end.

(** A list of events, one after the other; an exception ends it. *)
Fixpoint run (body : Callback -> Transform -> list Call) (n : nat)
    (inputs : list Input) : Comp unit :=
  match inputs with
  | [] => ret tt
  | i :: rest => seq (step body n i) (run body n rest)
  end.

(** A state of the full model over a world, with no record identified yet. *)
Definition init (w : World) : State :=
  {| base := w; ids := []; ids_made := 0; fn_transform := [] |}.

(** A callback that does nothing to the client. *)
Definition inert : Callback -> Transform -> list Call := fun _ _ => [].

End Full.

(** ** Vocabulary of the statements *)

(** The frame record [subscribe] leaves under the key of a frame. *)
Definition subscribed_info (old : option FrameInfo) (callback : Callback) : FrameInfo :=
  match old with
  | Some info => {| cbs := cbs info ++ [callback]; transform := transform info |}
  | None => {| cbs := [callback]; transform := None |}
  end.

(** The frame map after [unsubscribe] removed a registered callback. *)
Definition unsubscribed_frames (o : JsObject.t FrameInfo) (k : string)
    (info : FrameInfo) (callback : Callback) : JsObject.t FrameInfo :=
  let cbs' := Js.splice1 (Z.to_nat (Js.indexOf (cbs info) callback)) (cbs info) in
  match cbs' with
  | [] => JsObject.delete o k
  | _ :: _ => JsObject.set o k {| cbs := cbs'; transform := transform info |}
  end.

(** The request [updateGoal] builds from a client. *)
Definition goal_request (c : TFClient) : Msg.ServiceRequest :=
  {| Msg.source_frames := JsObject.for_in (frameInfos c);
     Msg.target_frame := fixedFrame c;
     Msg.angular_thres := angularThres c;
     Msg.trans_thres := transThres c;
     Msg.rate := rate c;
     Msg.timeout := topicTimeout c |}.

Definition stream_of (c : TFClient) : list Topic :=
  match currentTopic c with Some t => [t] | None => [] end.

Definition pending_timers (c : TFClient) : list float :=
  if goalUpdateRequested c then [goalUpdateDelay c] else [].

Definition has_callback (kv : string * FrameInfo) : Prop := cbs (snd kv) <> [].

Record invariant (w : World) : Prop := {
  (** the only topic delivering to the client is [currentTopic] *)
  inv_stream : listening (env w) = stream_of (this w);
  (** a timer is scheduled exactly while [goalUpdateRequested] is set *)
  inv_timer : timers (env w) = pending_timers (this w);
  (** every frame record has a callback *)
  inv_frames : Forall has_callback (frameInfos (this w))
}.

(** The callbacks registered for a frame, if it is tracked. *)
Definition cbs_of (w : World) (k : string) : option (list Callback) :=
  match JsObject.get (frameInfos (this w)) k with
  | Some info => Some (cbs info)
  | None => None
  end.

(** The calls a stream update makes, given the callbacks of its frame. *)
Definition deliveries (w : World) (u : Msg.TransformStamped) : list Effect :=
  match cbs_of w (remove_leading_slash (Msg.child_frame_id u)) with
  | Some l => map (fun cb => Invoke cb (new_Transform (Msg.transform u))) l
  | None => []
  end.

(** Counting the timers and the service calls among effects. *)
Definition is_timeout (e : Effect) : bool :=
  match e with SetTimeout _ => true | _ => false end.

Definition timeouts (es : list Effect) : nat := length (filter is_timeout es).

Fixpoint requests (es : list Effect) : list Msg.ServiceRequest :=
  match es with
  | [] => []
  | CallService _ r :: es' => r :: requests es'
  | _ :: es' => requests es'
  end.

Definition subscribe_inputs (l : list (string * Callback)) : list Input :=
  map (fun c => Subscribe (fst c) (snd c)) l.

Definition tracked (w : World) (frameID : string) : bool :=
  match JsObject.get (frameInfos (this w)) (remove_leading_slash frameID) with
  | Some _ => true
  | None => false
  end.

(** *** Sample worlds *)

(** The client [new TFClient({ ros : r })] computes. *)
Definition default_client (r : Ros) : TFClient :=
  {| ros := r;
     fixedFrame := "/base_link";
     angularThres := 2;
     transThres := 0.01;
     rate := 10;
     goalUpdateDelay := 50;
     topicTimeout := {| Msg.secs := 2; Msg.nsecs := 0 |};
     currentTopic := None;
     frameInfos := [];
     goalUpdateRequested := false;
     serviceClient :=
       {| service_name := "/republish_tfs";
          serviceType := "tf2_web_republisher/RepublishTFs" |};
     needUpdate := None |}.

Definition fresh : World :=
  {| this := default_client (Connection 0); env := empty_env |}.

(** The world after a list of events; events that cannot happen end it. *)
Definition play (inputs : list Input) (w : World) : World :=
  match run inputs w with
  | Some (w', _) => w'
  | None => w
  end.

Definition wheel_update : Msg.TransformStamped :=
  {| Msg.child_frame_id := "/wheel";
     Msg.transform :=
       {| Msg.translation := {| Geometry.x := 1; Geometry.y := 0; Geometry.z := 0 |};
          Msg.rotation :=
            {| Geometry.qx := 0; Geometry.qy := 0; Geometry.qz := 0; Geometry.qw := 1 |} |} |}.

Definition wheel_transform : Transform := new_Transform (Msg.transform wheel_update).

Definition stream0 : Topic :=
  {| topic_id := 0; name := "/tf_web_0"; messageType := "tf2_web_republisher/TFArray" |}.

(** "wheel" is tracked by callback 1, the stream is attached, and one
    update for it has arrived. *)
Definition wheel_world : World :=
  play [Subscribe "/wheel" 1; TimerFires;
        ServiceResponds 0 {| Msg.topic_name := "/tf_web_0" |};
        TopicDelivers stream0 {| Msg.transforms := [wheel_update] |}] fresh.

(** "wheel" is tracked by callback 1 and no update has arrived. *)
Definition waiting_world : World := play [Subscribe "/wheel" 1] fresh.

(** Every option is given and falsy: zeros and the empty string. *)
Definition zero_options : Options.t :=
  {| Options.ros := Some (Connection 0);
     Options.fixedFrame := Some "";
     Options.angularThres := Some 0%float;
     Options.transThres := Some 0%float;
     Options.rate := Some 0%float;
     Options.goalUpdateDelay := Some 0%float;
     Options.topicTimeout := Some 0%float |}.

(** "a" is tracked, its timer has fired, and the request is in flight. *)
Definition in_flight_world : World := play [Subscribe "a" 1; TimerFires] fresh.

(** A stream is attached and a second request, for "a" and "b", is in
    flight. *)
Definition streaming_world : World :=
  play [Subscribe "a" 1; TimerFires;
        ServiceResponds 0 {| Msg.topic_name := "/tf_web_0" |};
        Subscribe "b" 2; TimerFires] fresh.

(** The callbacks registered for a frame; none when it is not tracked. *)
Definition callbacks_of (w : World) (k : string) : list Callback :=
  match JsObject.get (frameInfos (this w)) k with
  | Some info => cbs info
  | None => []
  end.

(** The frame id begins with two slashes. *)
Definition double_slash (frameID : string) : bool :=
  Js.starts_with_slash frameID && Js.starts_with_slash (Js.substring1 frameID).

(** The event is not a [subscribe] of a frame id with two leading slashes. *)
Definition no_double_slash (i : Input) : bool :=
  match i with
  | Subscribe frameID _ => negb (double_slash frameID)
  | _ => true
  end.

(** The call names a frame that is not tracked. *)
Definition untracked_in (w : World) (c : string * Callback) : bool :=
  negb (tracked w (fst c)).

(** What a run of [subscribe] calls leaves unchanged or lets grow. *)
Record extends (w w1 : World) : Prop := {
  ext_keys : forall k, In k (JsObject.keys (frameInfos (this w))) ->
                       In k (JsObject.keys (frameInfos (this w1)));
  ext_delay : goalUpdateDelay (this w1) = goalUpdateDelay (this w);
  ext_service : serviceClient (this w1) = serviceClient (this w);
  ext_calls : calls (env w1) = calls (env w)
}.

(** *** Vocabulary of the further properties *)

(** A list of callbacks without the first occurrence of one of them. *)
Fixpoint remove_first (x : Callback) (l : list Callback) : list Callback :=
  match l with
  | [] => []
  | y :: l' => if Nat.eqb y x then l' else y :: remove_first x l'
  end.

(** The cached transform of a frame, if it is tracked and has one. *)
Definition cached (w : World) (k : string) : option Transform :=
  match JsObject.get (frameInfos (this w)) k with
  | Some info => transform info
  | None => None
  end.

(** The pose of the last update of a message that names frame [k]. *)
Fixpoint last_update (k : string) (us : list Msg.TransformStamped) : option Msg.Pose :=
  match us with
  | [] => None
  | u :: us' =>
      match last_update k us' with
      | Some p => Some p
      | None =>
          if String.eqb (remove_leading_slash (Msg.child_frame_id u)) k
          then Some (Msg.transform u) else None
      end
  end.

Definition unsubscribe_inputs (l : list (string * Callback)) : list Input :=
  map (fun c => Unsubscribe (fst c) (snd c)) l.

(** What the constructor fixes once and for all. *)
Definition config (c : TFClient)
  : Ros * string * float * float * float * float * Msg.Time * Service :=
  (ros c, fixedFrame c, angularThres c, transThres c, rate c,
   goalUpdateDelay c, topicTimeout c, serviceClient c).

(** Counting effects. *)
Definition is_new_topic (e : Effect) : bool :=
  match e with NewTopic _ => true | _ => false end.

Definition is_topic_subscribe (e : Effect) : bool :=
  match e with TopicSubscribe _ => true | _ => false end.

Definition is_topic_unsubscribe (e : Effect) : bool :=
  match e with TopicUnsubscribe _ => true | _ => false end.

Definition count_effects (p : Effect -> bool) (es : list Effect) : nat :=
  length (filter p es).

(** The callbacks called by a list of effects, in order. *)
Fixpoint invoked (es : list Effect) : list Callback :=
  match es with
  | [] => []
  | Invoke cb _ :: es' => cb :: invoked es'
  | _ :: es' => invoked es'
  end.

(** The world with its [needUpdate] property set to [v]. *)
Definition with_needUpdate (v : option bool) (w : World) : World :=
  {| this := set_needUpdate (this w) v; env := env w |}.

(** "wheel" is tracked by callbacks 1, 2 and 1 again. *)
Definition twice_world : World :=
  play [Subscribe "/wheel" 1; Subscribe "wheel" 2; Subscribe "/wheel" 1] fresh.

(** Two worlds that differ at most in the cached transforms. *)
Record same_but_cached (w w' : World) : Prop := {
  sbc_env : env w' = env w;
  sbc_config : config (this w') = config (this w);
  sbc_requested : goalUpdateRequested (this w') = goalUpdateRequested (this w);
  sbc_topic : currentTopic (this w') = currentTopic (this w);
  sbc_needUpdate : needUpdate (this w') = needUpdate (this w);
  sbc_keys : JsObject.keys (frameInfos (this w')) = JsObject.keys (frameInfos (this w));
  sbc_cbs : forall k, cbs_of w' k = cbs_of w k
}.


Definition is_invoke (e : Effect) : bool :=
  match e with Invoke _ _ => true | _ => false end.

(** The effect uses the values the client [c] was constructed with. *)
Definition configured (c : TFClient) (e : Effect) : Prop :=
  match e with
  | SetTimeout delay => delay = goalUpdateDelay c
  | CallService srv request =>
      srv = serviceClient c /\
      Msg.target_frame request = fixedFrame c /\
      Msg.angular_thres request = angularThres c /\
      Msg.trans_thres request = transThres c /\
      Msg.rate request = rate c /\
      Msg.timeout request = topicTimeout c
  | NewTopic t => messageType t = "tf2_web_republisher/TFArray"
  | _ => True
  end.

(** A client configured by hand, with a stream of half a second. *)
Definition custom_options : Options.t :=
  {| Options.ros := Some (Connection 7);
     Options.fixedFrame := Some "/world";
     Options.angularThres := Some 0.5%float;
     Options.transThres := Some 0.25%float;
     Options.rate := Some 30%float;
     Options.goalUpdateDelay := Some 100%float;
     Options.topicTimeout := Some 1.5%float |}.

Definition custom_client : TFClient :=
  {| ros := Connection 7;
     fixedFrame := "/world";
     angularThres := 0.5;
     transThres := 0.25;
     rate := 30;
     goalUpdateDelay := 100;
     topicTimeout := {| Msg.secs := 1; Msg.nsecs := 500000000 |};
     currentTopic := None;
     frameInfos := [];
     goalUpdateRequested := false;
     serviceClient :=
       {| service_name := "/republish_tfs";
          serviceType := "tf2_web_republisher/RepublishTFs" |};
     needUpdate := None |}.

Definition custom_world : World := {| this := custom_client; env := empty_env |}.

(** A session: two frames, a response, an update, a late frame. *)
Definition session : list Input :=
  [Subscribe "/wheel" 1; Subscribe "map" 2; TimerFires;
   ServiceResponds 0 {| Msg.topic_name := "/tf_web_0" |};
   TopicDelivers stream0 {| Msg.transforms := [wheel_update] |};
   Subscribe "odom" 3; TimerFires; Unsubscribe "map" 2;
   ServiceResponds 0 {| Msg.topic_name := "/tf_web_1" |}].






(** A result of the event loop, up to the value of [needUpdate]. *)
Definition forget_needUpdate (r : option (World * list Effect))
  : option (World * list Effect) :=
  match r with
  | Some (w, e) => Some (with_needUpdate None w, e)
  | None => None
  end.

(** *** Vocabulary of the statements about the full model *)

(** [subscribe] of the frame under key [k] calls nothing and raises nothing:
    the key has a record without a cached transform, or it has none and is
    not an inherited name. *)
Definition quiet (w : World) (k : string) : Prop :=
  match JsObject.get (frameInfos (this w)) k with
  | Some info => transform info = None
  | None => Full.inherited k = false
  end.

(** The outcome of the full model that matches a result of the methods run
    on own properties only. *)
Definition agrees (r : Full.Res unit) (s : Full.State) (c : World * list Effect) : Prop :=
  exists s',
    r = Full.Val tt s' (snd c) /\
    Full.base s' = fst c /\
    Full.fn_transform s' = Full.fn_transform s.

(** Callback 1 unsubscribes itself from "wheel" when it is called; the
    other callbacks do nothing. *)
Definition leaving : Callback -> Transform -> list Full.Call :=
  fun cb _ => if Nat.eqb cb 1 then [Full.CallUnsubscribe "wheel" 1] else [].


(** Whatever the outcome of [m] from a state with [I], the state it ends
    in has [I] and all its effects have [Q]. *)
Definition keeps (I : Full.State -> Prop) (Q : Effect -> Prop) (m : Full.Comp unit) : Prop :=
  forall s,
    I s ->
    match m s with
    | Full.Val _ s' e => I s' /\ Forall Q e
    | Full.Exc s' e => I s' /\ Forall Q e
    | Full.Halt _ => True
    end.

(** The delays of the timers that a list of effects schedules, in order. *)
Fixpoint filter_timeouts (es : list Effect) : list float :=
  match es with
  | [] => []
  | SetTimeout d :: es' => d :: filter_timeouts es'
  | _ :: es' => filter_timeouts es'
  end.

(** * Properties *)

(** ** Facts about objects used as maps *)

Module JsObjectFacts.
Import JsObject.

Section Store.
Variable V : Type.
Implicit Types (o : t V) (k : string) (v : V).

Lemma get_set_same o k v : get (set o k v) k = Some v.
Proof.
  induction o as [|[k' v'] o IH]; simpl.
  - now rewrite String.eqb_refl.
  - destruct (String.eqb k' k) eqn:E; simpl; now rewrite E.
Qed.

Lemma get_set_other o k k' v : k <> k' -> get (set o k v) k' = get o k'.
Proof.
  intros Hne. induction o as [|[k0 v0] o IH]; simpl.
  - destruct (String.eqb k k') eqn:E; [|reflexivity].
    apply String.eqb_eq in E. contradiction.
  - destruct (String.eqb k0 k) eqn:E; simpl.
    + apply String.eqb_eq in E. subst k0.
      destruct (String.eqb k k') eqn:E'; [|reflexivity].
      apply String.eqb_eq in E'. contradiction.
    + now rewrite IH.
Qed.

Lemma set_set o k v v' : set (set o k v) k v' = set o k v'.
Proof.
  induction o as [|[k0 v0] o IH]; simpl.
  - now rewrite String.eqb_refl.
  - destruct (String.eqb k0 k) eqn:E; simpl; rewrite E; [reflexivity|].
    now rewrite IH.
Qed.

Lemma get_delete_same o k : get (delete o k) k = None.
Proof.
  induction o as [|[k0 v0] o IH]; simpl; [reflexivity|].
  destruct (String.eqb k0 k) eqn:E; simpl; [assumption|].
  now rewrite E.
Qed.

Lemma get_delete_other o k k' : k <> k' -> get (delete o k) k' = get o k'.
Proof.
  intros Hne. induction o as [|[k0 v0] o IH]; simpl; [reflexivity|].
  destruct (String.eqb k0 k) eqn:E; simpl.
  - apply String.eqb_eq in E. subst k0.
    destruct (String.eqb k k') eqn:E'; [|assumption].
    apply String.eqb_eq in E'. contradiction.
  - now rewrite IH.
Qed.

Lemma keys_set_new o k v : get o k = None -> keys (set o k v) = keys o ++ [k].
Proof.
  unfold keys. induction o as [|[k0 v0] o IH]; simpl; [reflexivity|].
  destruct (String.eqb k0 k); [discriminate|].
  intros H. simpl. now rewrite IH.
Qed.

Lemma keys_set_old o k v v0 : get o k = Some v0 -> keys (set o k v) = keys o.
Proof.
  unfold keys. induction o as [|[k1 v1] o IH]; simpl; [discriminate|].
  destruct (String.eqb k1 k); [reflexivity|].
  intros H. simpl. now rewrite IH.
Qed.

Lemma get_in_keys o k : In k (keys o) <-> exists v, get o k = Some v.
Proof.
  unfold keys. induction o as [|[k0 v0] o IH]; simpl.
  - split; [contradiction | intros [v H]; discriminate].
  - destruct (String.eqb k0 k) eqn:E.
    + apply String.eqb_eq in E. split; eauto.
    + apply String.eqb_neq in E. rewrite <- IH. tauto.
Qed.

Lemma get_in o k v : get o k = Some v -> In (k, v) o.
Proof.
  induction o as [|[k0 v0] o IH]; simpl; [discriminate|].
  destruct (String.eqb k0 k) eqn:E.
  - apply String.eqb_eq in E. intros [= ->]. subst. now left.
  - auto.
Qed.

(** A property of all stored values survives an assignment of a value
    that has it, and a deletion. *)
Lemma Forall_set (P : V -> Prop) o k v :
  Forall (fun kv => P (snd kv)) o -> P v ->
  Forall (fun kv => P (snd kv)) (set o k v).
Proof.
  intros Ho Hv. induction Ho as [|[k0 v0] o H0 Ho IH]; simpl.
  - constructor; [assumption | constructor].
  - destruct (String.eqb k0 k); constructor; assumption.
Qed.

Lemma Forall_delete (P : V -> Prop) o k :
  Forall (fun kv => P (snd kv)) o ->
  Forall (fun kv => P (snd kv)) (delete o k).
Proof.
  intros Ho. induction Ho as [|[k0 v0] o H0 Ho IH]; simpl.
  - constructor.
  - destruct (String.eqb k0 k); [assumption | constructor; assumption].
Qed.

End Store.

(** [for ... in] visits exactly the own keys. *)

Lemma in_insert_index p q l : In p (insert_index q l) <-> p = q \/ In p l.
Proof.
  induction l as [|r l IH]; simpl.
  - intuition congruence.
  - destruct (fst q <=? fst r)%N; simpl; [|rewrite IH]; intuition congruence.
Qed.

Lemma in_index_keys n k ks :
  In (n, k) (index_keys ks) <-> In k ks /\ array_index k = Some n.
Proof.
  induction ks as [|k0 ks IH]; simpl.
  - tauto.
  - destruct (array_index k0) eqn:E.
    + rewrite in_insert_index, IH. split.
      * intros [[= -> ->] | [H1 H2]]; auto.
      * intros [[-> | H1] H2]; [left; congruence | auto].
    + rewrite IH. split.
      * intros [H1 H2]; auto.
      * intros [[-> | H1] H2]; [congruence | auto].
Qed.

Lemma in_for_in (V : Type) (o : t V) k : In k (for_in o) <-> In k (keys o).
Proof.
  unfold for_in. rewrite in_app_iff, in_map_iff, filter_In. split.
  - intros [[[n k'] [Hk Hin]] | [Hin _]]; [|assumption].
    simpl in Hk. subst k'. now apply in_index_keys in Hin.
  - intros Hin. unfold is_index. destruct (array_index k) as [n|] eqn:E.
    + left. exists (n, k). split; [reflexivity|]. now apply in_index_keys.
    + right. auto.
Qed.

(** Without index-like names, the enumeration is the creation order. *)
Lemma for_in_no_index (V : Type) (o : t V) :
  Forall (fun k => is_index k = false) (keys o) -> for_in o = keys o.
Proof.
  unfold for_in, is_index. generalize (keys o) as ks. intros ks H.
  assert (Hi : index_keys ks = []).
  { induction H as [|k ks Hk Hks IH]; [reflexivity|].
    simpl. now destruct (array_index k). }
  rewrite Hi. simpl.
  induction H as [|k ks Hk Hks IH]; [reflexivity|].
  simpl in *. destruct (array_index k); [discriminate|].
  simpl. rewrite IH; [reflexivity | assumption].
Qed.

End JsObjectFacts.

(** ** Facts about arrays of callbacks *)

Lemma indexOf_lower a x : (-1 <= Js.indexOf a x)%Z.
Proof.
  induction a as [|y a IH]; simpl; [lia|].
  destruct (Nat.eqb y x); [lia|].
  destruct (Js.indexOf a x <? 0)%Z eqn:E; [lia|].
  apply Z.ltb_ge in E. lia.
Qed.

Lemma indexOf_absent a x : ~ In x a -> Js.indexOf a x = (-1)%Z.
Proof.
  induction a as [|y a IH]; simpl; [reflexivity|].
  intros H. destruct (Nat.eqb y x) eqn:E.
  - apply Nat.eqb_eq in E. tauto.
  - rewrite IH by tauto. reflexivity.
Qed.

Lemma indexOf_present a x :
  In x a ->
  (0 <= Js.indexOf a x)%Z /\ nth_error a (Z.to_nat (Js.indexOf a x)) = Some x.
Proof.
  induction a as [|y a IH]; simpl; [contradiction|].
  intros H. destruct (Nat.eqb y x) eqn:E.
  - apply Nat.eqb_eq in E. subst y. split; [lia | reflexivity].
  - apply Nat.eqb_neq in E. destruct H as [H | H]; [contradiction|].
    destruct (IH H) as [Hge Hnth].
    destruct (Js.indexOf a x <? 0)%Z eqn:L; [apply Z.ltb_lt in L; lia|].
    split; [lia|].
    replace (Z.to_nat (Js.indexOf a x + 1)) with (S (Z.to_nat (Js.indexOf a x))) by lia.
    exact Hnth.
Qed.

Lemma splice1_length (A : Type) (a : list A) i :
  i < length a -> S (length (Js.splice1 i a)) = length a.
Proof.
  revert i. induction a as [|y a IH]; simpl; intros i Hi; [lia|].
  destruct i as [|i]; [reflexivity|].
  simpl. rewrite IH by lia. reflexivity.
Qed.

(** ** What each method does, case by case *)

Lemma forEach_call cbs0 tr w :
  forEach cbs0 (fun cb => call cb tr) w = (tt, w, map (fun cb => Invoke cb tr) cbs0).
Proof.
  induction cbs0 as [|cb l IH]; [reflexivity|].
  simpl. unfold bind. simpl. now rewrite IH.
Qed.

Lemma subscribe_tracked_eq w frameID callback info :
  JsObject.get (frameInfos (this w)) (remove_leading_slash frameID) = Some info ->
  exec (subscribe frameID callback) w =
    ({| this := set_frameInfos (this w)
                  (JsObject.set (frameInfos (this w)) (remove_leading_slash frameID)
                     (subscribed_info (Some info) callback));
        env := env w |},
     match transform info with Some tr => [Invoke callback tr] | None => [] end).
Proof.
  intros H. unfold exec, subscribe, bind, get_this. rewrite H.
  destruct (transform info) as [tr|]; simpl; rewrite H; reflexivity.
Qed.

Lemma subscribe_untracked_eq w frameID callback :
  JsObject.get (frameInfos (this w)) (remove_leading_slash frameID) = None ->
  exec (subscribe frameID callback) w =
    if goalUpdateRequested (this w) then
      ({| this := set_frameInfos (this w)
                    (JsObject.set (frameInfos (this w)) (remove_leading_slash frameID)
                       (subscribed_info None callback));
          env := env w |}, [])
    else
      ({| this := set_frameInfos (set_goalUpdateRequested (this w) true)
                    (JsObject.set (frameInfos (this w)) (remove_leading_slash frameID)
                       (subscribed_info None callback));
          env := set_timers (env w) (timers (env w) ++ [goalUpdateDelay (this w)]) |},
       [SetTimeout (goalUpdateDelay (this w))]).
Proof.
  intros H. unfold exec, subscribe, bind, get_this. rewrite H.
  destruct w as [c e]. simpl in *.
  destruct (goalUpdateRequested c) eqn:G; simpl;
    rewrite JsObjectFacts.get_set_same; simpl;
    rewrite JsObjectFacts.set_set; unfold set_frameInfos, set_goalUpdateRequested;
    simpl; try rewrite G; reflexivity.
Qed.

Lemma unsubscribe_untracked_eq w frameID callback :
  JsObject.get (frameInfos (this w)) (remove_leading_slash frameID) = None ->
  exec (unsubscribe frameID callback) w = (w, []).
Proof.
  intros H. unfold exec, unsubscribe, bind, get_this. now rewrite H.
Qed.

Lemma unsubscribe_unknown_eq w frameID callback info :
  JsObject.get (frameInfos (this w)) (remove_leading_slash frameID) = Some info ->
  ~ In callback (cbs info) ->
  exec (unsubscribe frameID callback) w = (w, []).
Proof.
  intros H Hn. unfold exec, unsubscribe, bind, get_this. rewrite H.
  now rewrite (indexOf_absent _ _ Hn).
Qed.

Lemma delete_set (V : Type) (o : JsObject.t V) k v :
  JsObject.delete (JsObject.set o k v) k = JsObject.delete o k.
Proof.
  induction o as [|[k0 v0] o IH]; simpl.
  - now rewrite String.eqb_refl.
  - destruct (String.eqb k0 k) eqn:E; simpl; rewrite E; [reflexivity|].
    now rewrite IH.
Qed.

Lemma unsubscribe_registered_eq w frameID callback info :
  JsObject.get (frameInfos (this w)) (remove_leading_slash frameID) = Some info ->
  In callback (cbs info) ->
  exec (unsubscribe frameID callback) w =
    ({| this := set_needUpdate
                  (set_frameInfos (this w)
                     (unsubscribed_frames (frameInfos (this w))
                        (remove_leading_slash frameID) info callback))
                  (Some true);
        env := env w |}, []).
Proof.
  intros H Hin. unfold exec, unsubscribe, bind, get_this. rewrite H.
  destruct (indexOf_present _ _ Hin) as [Hge _].
  apply Z.leb_le in Hge. rewrite Hge. unfold unsubscribed_frames.
  destruct w as [c e]. simpl in *.
  destruct (Js.splice1 _ (cbs info)) as [|cb0 rest]; simpl.
  - rewrite delete_set. reflexivity.
  - reflexivity.
Qed.

Lemma processTransform_tracked_eq w u info :
  JsObject.get (frameInfos (this w)) (remove_leading_slash (Msg.child_frame_id u)) = Some info ->
  exec (processTransform u) w =
    ({| this := set_frameInfos (this w)
                  (JsObject.set (frameInfos (this w))
                     (remove_leading_slash (Msg.child_frame_id u))
                     {| cbs := cbs info;
                        transform := Some (new_Transform (Msg.transform u)) |});
        env := env w |},
     map (fun cb => Invoke cb (new_Transform (Msg.transform u))) (cbs info)).
Proof.
  intros H. unfold exec, processTransform, bind, get_this. rewrite H.
  unfold update_this. now rewrite forEach_call.
Qed.

Lemma processTransform_untracked_eq w u :
  JsObject.get (frameInfos (this w)) (remove_leading_slash (Msg.child_frame_id u)) = None ->
  exec (processTransform u) w = (w, []).
Proof.
  intros H. unfold exec, processTransform, bind, get_this. now rewrite H.
Qed.

Lemma exec_bind (m k : M unit) w :
  exec (m ;; k) w =
    let '(w1, e1) := exec m w in
    let '(w2, e2) := exec k w1 in
    (w2, e1 ++ e2).
Proof.
  unfold exec, bind. destruct (m w) as [[[] w1] e1].
  destruct (k w1) as [[[] w2] e2]. reflexivity.
Qed.

Lemma fold_push_source_frame l r :
  fold_left Msg.push_source_frame l r =
    {| Msg.source_frames := Msg.source_frames r ++ l;
       Msg.target_frame := Msg.target_frame r;
       Msg.angular_thres := Msg.angular_thres r;
       Msg.trans_thres := Msg.trans_thres r;
       Msg.rate := Msg.rate r;
       Msg.timeout := Msg.timeout r |}.
Proof.
  revert r. induction l as [|k l IH]; intros r; simpl.
  - rewrite app_nil_r. now destruct r.
  - rewrite IH. simpl. now rewrite <- app_assoc.
Qed.

Lemma updateGoal_eq w :
  exec updateGoal w =
    ({| this := set_goalUpdateRequested (this w) false;
        env := set_calls (env w) (calls (env w) ++ [goal_request (this w)]) |},
     [CallService (serviceClient (this w)) (goal_request (this w))]).
Proof.
  unfold exec, updateGoal, bind, get_this. rewrite fold_push_source_frame.
  reflexivity.
Qed.

Lemma processResponse_eq w response :
  let t := {| topic_id := topics_made (env w);
              name := Msg.topic_name response;
              messageType := "tf2_web_republisher/TFArray" |} in
  let kept :=
    match currentTopic (this w) with
    | Some old =>
        filter (fun u => negb (Nat.eqb (topic_id u) (topic_id old))) (listening (env w))
    | None => listening (env w)
    end in
  exec (processResponse response) w =
    ({| this := set_currentTopic (this w) (Some t);
        env := {| timers := timers (env w); calls := calls (env w);
                  listening := kept ++ [t];
                  topics_made := S (topics_made (env w)) |} |},
     match currentTopic (this w) with
     | Some old => [TopicUnsubscribe old; NewTopic t; TopicSubscribe t]
     | None => [NewTopic t; TopicSubscribe t]
     end).
Proof.
  unfold exec, processResponse, bind, get_this.
  destruct (currentTopic (this w)) as [old|]; reflexivity.
Qed.

(** ** Invariants of the event loop *)

Lemma invariant_boot options w : boot options = Some w -> invariant w.
Proof.
  unfold boot, new_TFClient. intros H.
  destruct (Options.ros _); [|discriminate].
  injection H as <-. split; simpl; [reflexivity | reflexivity | constructor].
Qed.

Lemma invariant_subscribe w frameID callback :
  invariant w -> invariant (fst (exec (subscribe frameID callback) w)).
Proof.
  intros [Hs Ht Hf].
  destruct (JsObject.get (frameInfos (this w)) (remove_leading_slash frameID))
    as [info|] eqn:G.
  - rewrite (subscribe_tracked_eq _ _ _ G). split; simpl; try assumption.
    apply JsObjectFacts.Forall_set with (P := fun i => cbs i <> []); [assumption|].
    simpl. now destruct (cbs info).
  - rewrite (subscribe_untracked_eq _ _ _ G).
    unfold pending_timers in Ht.
    destruct (goalUpdateRequested (this w)) eqn:R; split; simpl;
      try assumption;
      try (apply JsObjectFacts.Forall_set with (P := fun i => cbs i <> []);
           [assumption | simpl; discriminate]).
    all: unfold pending_timers; simpl; rewrite Ht, ?R; reflexivity.
Qed.

Lemma invariant_unsubscribe w frameID callback :
  invariant w -> invariant (fst (exec (unsubscribe frameID callback) w)).
Proof.
  intros Hw.
  destruct (JsObject.get (frameInfos (this w)) (remove_leading_slash frameID))
    as [info|] eqn:G.
  - destruct (in_dec Nat.eq_dec callback (cbs info)) as [Hin | Hn].
    + rewrite (unsubscribe_registered_eq _ _ _ G Hin).
      destruct Hw as [Hs Ht Hf]. split; simpl; try assumption.
      unfold unsubscribed_frames.
      destruct (Js.splice1 _ (cbs info)) as [|cb0 rest] eqn:S.
      * now apply JsObjectFacts.Forall_delete with (P := fun i => cbs i <> []).
      * apply JsObjectFacts.Forall_set with (P := fun i => cbs i <> []);
          [assumption | simpl; discriminate].
    + now rewrite (unsubscribe_unknown_eq _ _ _ G Hn).
  - now rewrite (unsubscribe_untracked_eq _ _ _ G).
Qed.

Lemma invariant_processTransform w u :
  invariant w -> invariant (fst (exec (processTransform u) w)).
Proof.
  intros Hw.
  destruct (JsObject.get (frameInfos (this w))
              (remove_leading_slash (Msg.child_frame_id u))) as [info|] eqn:G.
  - rewrite (processTransform_tracked_eq _ _ G).
    destruct Hw as [Hs Ht Hf]. split; simpl; try assumption.
    apply JsObjectFacts.Forall_set with (P := fun i => cbs i <> []); [assumption|].
    simpl. apply JsObjectFacts.get_in in G.
    rewrite Forall_forall in Hf. exact (Hf _ G).
  - now rewrite (processTransform_untracked_eq _ _ G).
Qed.

Lemma invariant_processFeedback tf w :
  invariant w -> invariant (fst (exec (processFeedback tf) w)).
Proof.
  unfold processFeedback. generalize (Msg.transforms tf) as us.
  intros us. revert w. induction us as [|u us IH]; intros w Hw; [assumption|].
  simpl forEach. rewrite exec_bind.
  pose proof (invariant_processTransform u Hw) as H1.
  destruct (exec (processTransform u) w) as [w1 e1]. simpl in H1.
  specialize (IH w1 H1).
  destruct (exec (forEach us processTransform) w1) as [w2 e2]. exact IH.
Qed.

Lemma invariant_step i w w' e :
  invariant w -> step i w = Some (w', e) -> invariant w'.
Proof.
  intros Hw Hstep. destruct i as [f cb | f cb | | i response | t tf]; simpl in Hstep.
  - injection Hstep as Hx. pose proof (invariant_subscribe f cb Hw) as H.
    now rewrite Hx in H.
  - injection Hstep as Hx. pose proof (invariant_unsubscribe f cb Hw) as H.
    now rewrite Hx in H.
  - destruct Hw as [Hs Ht Hf]. unfold pending_timers in Ht.
    destruct (timers (env w)) as [|d rest] eqn:T; [discriminate|].
    rewrite updateGoal_eq in Hstep. injection Hstep as <- <-.
    destruct (goalUpdateRequested (this w)); [|discriminate].
    injection Ht as -> ->. split; simpl; try assumption. reflexivity.
  - destruct (Nat.ltb i (length (calls (env w)))); [|discriminate].
    rewrite processResponse_eq in Hstep. injection Hstep as <- <-.
    destruct Hw as [Hs Ht Hf]. split; simpl; try assumption.
    rewrite Hs. unfold stream_of.
    destruct (currentTopic (this w)) as [old|]; simpl; [|reflexivity].
    now rewrite Nat.eqb_refl.
  - destruct (is_listening (env w) t); [|discriminate].
    injection Hstep as Hx. pose proof (invariant_processFeedback tf Hw) as H.
    now rewrite Hx in H.
Qed.

Lemma reachable_invariant w : reachable w -> invariant w.
Proof.
  induction 1 as [options w Hb | w i w' e Hr IH Hstep].
  - exact (invariant_boot _ Hb).
  - exact (invariant_step _ IH Hstep).
Qed.


(** ** The claims *)



Lemma cbs_of_processTransform w u k :
  cbs_of (fst (exec (processTransform u) w)) k = cbs_of w k.
Proof.
  destruct (JsObject.get (frameInfos (this w))
              (remove_leading_slash (Msg.child_frame_id u))) as [info|] eqn:G.
  - rewrite (processTransform_tracked_eq _ _ G). unfold cbs_of. simpl.
    destruct (string_dec (remove_leading_slash (Msg.child_frame_id u)) k) as [<- | Hne].
    + now rewrite JsObjectFacts.get_set_same, G.
    + now rewrite JsObjectFacts.get_set_other.
  - now rewrite (processTransform_untracked_eq _ _ G).
Qed.

Lemma processTransform_effects w u :
  snd (exec (processTransform u) w) = deliveries w u.
Proof.
  unfold deliveries, cbs_of.
  destruct (JsObject.get (frameInfos (this w))
              (remove_leading_slash (Msg.child_frame_id u))) as [info|] eqn:G.
  - now rewrite (processTransform_tracked_eq _ _ G).
  - now rewrite (processTransform_untracked_eq _ _ G).
Qed.

Lemma processFeedback_cons w u us :
  exec (processFeedback {| Msg.transforms := u :: us |}) w =
    let '(w1, e1) := exec (processTransform u) w in
    let '(w2, e2) := exec (processFeedback {| Msg.transforms := us |}) w1 in
    (w2, e1 ++ e2).
Proof. unfold processFeedback. simpl. apply exec_bind. Qed.

Lemma processFeedback_effects us w :
  snd (exec (processFeedback {| Msg.transforms := us |}) w) = flat_map (deliveries w) us.
Proof.
  revert w. induction us as [|u us IH]; intros w; [reflexivity|].
  rewrite processFeedback_cons.
  pose proof (processTransform_effects w u) as He.
  pose proof (fun k => cbs_of_processTransform w u k) as Hc.
  destruct (exec (processTransform u) w) as [w1 e1]. simpl in He, Hc.
  specialize (IH w1).
  destruct (exec (processFeedback {| Msg.transforms := us |}) w1) as [w2 e2].
  simpl in IH. simpl. rewrite He, IH. f_equal.
  apply flat_map_ext. intros u'. unfold deliveries. now rewrite Hc.
Qed.

(** ** The constructor and its defaults *)

(** [Math.floor] on a few values, and the timeout of 2.5 seconds. *)
Example Math_floor_values :
  Js.Math_floor 2 = 2%float /\
  Js.Math_floor 2.5 = 2%float /\
  Js.Math_floor (-0.5) = (-1)%float /\
  Js.Math_floor ((2.5 - Js.Math_floor 2.5) * 1000000000) = 500000000%float /\
  Js.Math_floor infinity = infinity.
Proof. repeat split. Qed.

Lemma boot_defaults r :
  boot (Some (Options.defaults r))
    = Some {| this := default_client r; env := empty_env |}.
Proof. reflexivity. Qed.

Lemma or_num_falsy x d : Js.truthy_num x = false -> Js.or_num (Some x) d = d.
Proof. intros H. unfold Js.or_num. now rewrite H. Qed.

Lemma or_num_not_zero o d : is_zero d = false -> is_zero (Js.or_num o d) = false.
Proof.
  intros Hd. destruct o as [x|]; simpl; [|assumption].
  unfold Js.truthy_num. destruct (is_zero x) eqn:Z; simpl; [assumption|].
  destruct (is_nan x); simpl; assumption.
Qed.

(** C8: a client made with default options, after the single call
    [subscribe("/base_link", cb)] and the firing of the timer it scheduled
    (with the default delay, 50), has issued exactly one service call, with
    [target_frame = "/base_link"], [angular_thres = 2.0], [trans_thres = 0.01],
    [rate = 10.0], [timeout = {secs: 2, nsecs: 0}] and
    [source_frames = ["base_link"]]; no timer is left. *)
Theorem default_client_request r cb :
  exists w0 w,
    boot (Some (Options.defaults r)) = Some w0 /\
    run [Subscribe "/base_link" cb; TimerFires] w0
      = Some (w,
              [SetTimeout 50;
               CallService
                 {| service_name := "/republish_tfs";
                    serviceType := "tf2_web_republisher/RepublishTFs" |}
                 {| Msg.source_frames := ["base_link"];
                    Msg.target_frame := "/base_link";
                    Msg.angular_thres := 2;
                    Msg.trans_thres := 0.01;
                    Msg.rate := 10;
                    Msg.timeout := {| Msg.secs := 2; Msg.nsecs := 0 |} |}]) /\
    timers (env w) = [] /\
    step TimerFires w = None.
Proof.
  eexists. eexists. split; [apply boot_defaults|].
  split; [reflexivity|]. split; reflexivity.
Qed.

(** C10: a falsy value given for an option is replaced by the default: a
    number that is [0] (or [-0], or [NaN]) given for [angularThres],
    [transThres], [rate], [goalUpdateDelay] or [topicTimeout], and the empty
    string given for [fixedFrame].  Hence no client has a zero threshold, a
    zero rate or a zero delay. *)
Theorem falsy_options_use_defaults options c :
  new_TFClient (Some options) = Some c ->
  Js.truthy_num 0 = false /\
  (forall v, Options.angularThres options = Some v -> Js.truthy_num v = false ->
     angularThres c = 2%float) /\
  (forall v, Options.transThres options = Some v -> Js.truthy_num v = false ->
     transThres c = 0.01%float) /\
  (forall v, Options.rate options = Some v -> Js.truthy_num v = false ->
     rate c = 10%float) /\
  (forall v, Options.goalUpdateDelay options = Some v -> Js.truthy_num v = false ->
     goalUpdateDelay c = 50%float) /\
  (forall v, Options.topicTimeout options = Some v -> Js.truthy_num v = false ->
     topicTimeout c = {| Msg.secs := 2; Msg.nsecs := 0 |}) /\
  (Options.fixedFrame options = Some "" -> fixedFrame c = "/base_link") /\
  is_zero (angularThres c) = false /\
  is_zero (transThres c) = false /\
  is_zero (rate c) = false /\
  is_zero (goalUpdateDelay c) = false /\
  fixedFrame c <> "".
Proof.
  unfold new_TFClient. destruct (Options.ros options); [|discriminate].
  intros [= <-]. simpl. split; [reflexivity|].
  repeat split.
  - intros v -> Hv. now apply or_num_falsy.
  - intros v -> Hv. now apply or_num_falsy.
  - intros v -> Hv. now apply or_num_falsy.
  - intros v -> Hv. now apply or_num_falsy.
  - intros v -> Hv. now rewrite (@or_num_falsy v _ Hv).
  - now intros ->.
  - now apply or_num_not_zero.
  - now apply or_num_not_zero.
  - now apply or_num_not_zero.
  - now apply or_num_not_zero.
  - destruct (Options.fixedFrame options) as [[|a s]|]; simpl; discriminate.
Qed.

Lemma falsy_options_use_defaults_witness :
  new_TFClient (Some zero_options) = Some (default_client (Connection 0)) /\
  angularThres (default_client (Connection 0)) = 2%float /\
  rate (default_client (Connection 0)) = 10%float /\
  fixedFrame (default_client (Connection 0)) = "/base_link".
Proof.
  split; [reflexivity|].
  destruct (@falsy_options_use_defaults zero_options (default_client (Connection 0)) eq_refl)
    as [Hz [Ha [_ [Hr [_ [_ [Hf _]]]]]]].
  split; [exact (Ha 0%float eq_refl Hz)|].
  split; [exact (Hr 0%float eq_refl Hz) | exact (Hf eq_refl)].
Defined.

(** ** Coalescing of subscriptions *)

Lemma extends_refl w : extends w w.
Proof. split; auto. Qed.

Lemma extends_trans w1 w2 w3 : extends w1 w2 -> extends w2 w3 -> extends w1 w3.
Proof.
  intros [K1 D1 S1 C1] [K2 D2 S2 C2]. split; auto; congruence.
Qed.

Lemma subscribe_tracked_step w f cb :
  tracked w f = true ->
  exists w1 e1,
    exec (subscribe f cb) w = (w1, e1) /\
    timeouts e1 = 0 /\ requests e1 = [] /\
    goalUpdateRequested (this w1) = goalUpdateRequested (this w) /\
    timers (env w1) = timers (env w) /\
    extends w w1 /\
    (forall f', tracked w1 f' = tracked w f').
Proof.
  unfold tracked. intros Ht.
  destruct (JsObject.get (frameInfos (this w)) (remove_leading_slash f))
    as [info|] eqn:G; [|discriminate].
  rewrite (subscribe_tracked_eq _ _ _ G). eexists. eexists.
  split; [reflexivity|]. simpl.
  split; [now destruct (transform info)|].
  split; [now destruct (transform info)|].
  split; [reflexivity|]. split; [reflexivity|]. split.
  - split; simpl; auto. intros k Hk.
    now rewrite (JsObjectFacts.keys_set_old _ _ _ G).
  - intros f'.
    destruct (string_dec (remove_leading_slash f) (remove_leading_slash f')) as [<- | Hne].
    + now rewrite JsObjectFacts.get_set_same, G.
    + now rewrite JsObjectFacts.get_set_other.
Qed.

Lemma subscribe_untracked_step w f cb :
  tracked w f = false ->
  exists w1 e1,
    exec (subscribe f cb) w = (w1, e1) /\
    timeouts e1 = (if goalUpdateRequested (this w) then 0 else 1) /\
    requests e1 = [] /\
    goalUpdateRequested (this w1) = true /\
    timers (env w1) =
      timers (env w) ++
        (if goalUpdateRequested (this w) then [] else [goalUpdateDelay (this w)]) /\
    extends w w1 /\
    In (remove_leading_slash f) (JsObject.keys (frameInfos (this w1))).
Proof.
  unfold tracked. intros Ht.
  destruct (JsObject.get (frameInfos (this w)) (remove_leading_slash f))
    as [info|] eqn:G; [discriminate|].
  rewrite (subscribe_untracked_eq _ _ _ G).
  destruct (goalUpdateRequested (this w)) eqn:R; eexists; eexists;
    (split; [reflexivity|]); simpl; rewrite ?app_nil_r;
    repeat (split; try reflexivity; try assumption); simpl;
    try (intros k Hk); rewrite (JsObjectFacts.keys_set_new _ _ _ G);
    apply in_or_app; simpl; auto.
Qed.

Lemma subscribe_tracks w f cb :
  In (remove_leading_slash f)
     (JsObject.keys (frameInfos (this (fst (exec (subscribe f cb) w))))).
Proof.
  destruct (tracked w f) eqn:T.
  - destruct (subscribe_tracked_step w f cb T) as [w1 [e1 [-> [_ [_ [_ [_ [He _]]]]]]]].
    simpl. apply (ext_keys He). apply JsObjectFacts.get_in_keys.
    unfold tracked in T.
    destruct (JsObject.get (frameInfos (this w)) (remove_leading_slash f)) as [info|];
      [eauto | discriminate].
  - destruct (subscribe_untracked_step w f cb T) as [w1 [e1 [-> [_ [_ [_ [_ [_ Hin]]]]]]]].
    exact Hin.
Qed.

Lemma timeouts_app e1 e2 : timeouts (e1 ++ e2) = timeouts e1 + timeouts e2.
Proof. unfold timeouts. now rewrite filter_app, length_app. Qed.

Lemma requests_app e1 e2 : requests (e1 ++ e2) = requests e1 ++ requests e2.
Proof.
  induction e1 as [|e e1 IH]; [reflexivity|].
  destruct e; simpl; now rewrite ?IH.
Qed.

Lemma run_subscribes l : forall w,
  exists w1 e1,
    run (subscribe_inputs l) w = Some (w1, e1) /\
    requests e1 = [] /\
    goalUpdateRequested (this w1)
      = goalUpdateRequested (this w) || existsb (untracked_in w) l /\
    timeouts e1
      = (if goalUpdateRequested (this w) then 0
         else if existsb (untracked_in w) l then 1 else 0) /\
    timers (env w1)
      = timers (env w) ++
          (if goalUpdateRequested (this w) then []
           else if existsb (untracked_in w) l then [goalUpdateDelay (this w)] else []) /\
    extends w w1 /\
    (forall c, In c l ->
       In (remove_leading_slash (fst c)) (JsObject.keys (frameInfos (this w1)))).
Proof.
  induction l as [|[f cb] l IH]; intros w.
  - exists w, []. simpl. rewrite orb_false_r.
    repeat split; auto using extends_refl.
    + now destruct (goalUpdateRequested (this w)).
    + rewrite <- (app_nil_r (timers (env w))) at 1.
      now destruct (goalUpdateRequested (this w)).
    + contradiction.
  - simpl run. pose proof (subscribe_tracks w f cb) as Hin.
    simpl existsb. change (untracked_in w (f, cb)) with (negb (tracked w f)).
    destruct (tracked w f) eqn:T.
    + destruct (subscribe_tracked_step w f cb T)
        as [w' [e' [Hx [Ht [Hr [Hg [Htm [Hext Hsame]]]]]]]].
      rewrite Hx in *. simpl in Hin.
      destruct (IH w') as [w1 [e1 [Hrun [Hr1 [Hg1 [Ht1 [Htm1 [Hext1 Hall]]]]]]]].
      rewrite Hrun. exists w1, (e' ++ e1).
      assert (Hsame' : existsb (untracked_in w') l = existsb (untracked_in w) l).
      { clear -Hsame. induction l as [|c l IHl]; [reflexivity|].
        simpl. unfold untracked_in at 1 3. now rewrite Hsame, IHl. }
      rewrite Hsame', Hg, Htm, (ext_delay Hext) in *. simpl.
      split; [reflexivity|].
      split; [now rewrite requests_app, Hr, Hr1|].
      split; [assumption|].
      split; [now rewrite timeouts_app, Ht, Ht1|].
      split; [assumption|].
      split; [exact (extends_trans Hext Hext1)|].
      intros c [<- | Hc]; [apply (ext_keys Hext1); exact Hin | now apply Hall].
    + destruct (subscribe_untracked_step w f cb T)
        as [w' [e' [Hx [Ht [Hr [Hg [Htm [Hext _]]]]]]]].
      rewrite Hx in *. simpl in Hin.
      destruct (IH w') as [w1 [e1 [Hrun [Hr1 [Hg1 [Ht1 [Htm1 [Hext1 Hall]]]]]]]].
      rewrite Hrun. exists w1, (e' ++ e1).
      rewrite Hg in *. simpl in *. rewrite app_nil_r in Htm1.
      rewrite orb_true_r.
      split; [reflexivity|].
      split; [now rewrite requests_app, Hr, Hr1|].
      split; [assumption|].
      split; [rewrite timeouts_app, Ht, Ht1;
              now destruct (goalUpdateRequested (this w))|].
      split; [now rewrite Htm1, Htm|].
      split; [exact (extends_trans Hext Hext1)|].
      intros c [<- | Hc]; [apply (ext_keys Hext1); exact Hin | now apply Hall].
Qed.

Lemma reachable_fresh : reachable fresh.
Proof. apply reach_boot with (options := Some (Options.defaults (Connection 0))). reflexivity. Qed.

Lemma timer_fires_eq w d :
  timers (env w) = [d] ->
  step TimerFires w
    = Some ({| this := set_goalUpdateRequested (this w) false;
               env := set_calls (set_timers (env w) [])
                        (calls (env w) ++ [goal_request (this w)]) |},
            [CallService (serviceClient (this w)) (goal_request (this w))]).
Proof. intros H. simpl. rewrite H, updateGoal_eq. reflexivity. Qed.

(** The coalesced request of three new frames, evaluated. *)
Example coalesce_three_frames :
  option_map snd
    (run [Subscribe "/odom" 1; Subscribe "map" 2; Subscribe "/wheel" 3; TimerFires] fresh)
  = Some [SetTimeout 50;
          CallService (serviceClient (this fresh))
            {| Msg.source_frames := ["odom"; "map"; "wheel"];
               Msg.target_frame := "/base_link";
               Msg.angular_thres := 2;
               Msg.trans_thres := 0.01;
               Msg.rate := 10;
               Msg.timeout := {| Msg.secs := 2; Msg.nsecs := 0 |} |}].
Proof. reflexivity. Qed.

(** ** Subscribing after the timer has fired *)

(** The request is in flight: the timer of "a" has fired, no response yet. *)
Example in_flight_world_facts :
  goalUpdateRequested (this in_flight_world) = false /\
  length (calls (env in_flight_world)) = 1 /\
  timers (env in_flight_world) = [] /\
  tracked in_flight_world "b" = false.
Proof. repeat split. Qed.

Lemma reachable_play inputs w : reachable w -> reachable (play inputs w).
Proof.
  unfold play. revert w. induction inputs as [|i rest IH]; intros w Hw; [assumption|].
  simpl. destruct (step i w) as [[w1 e1]|] eqn:S; [|assumption].
  specialize (IH w1 (@reach_step w i w1 e1 Hw S)).
  destruct (run rest w1) as [[w2 e2]|]; assumption.
Qed.

(** C4, as stated, fails.  The statement refuted reads: once the timer has
    fired, with a request in flight or a stream attached, [subscribe] of a
    frame not tracked yet leaves no timer behind (so that no request would
    follow).  With the request for "a" in flight, [subscribe] of the new
    frame "b" leaves a timer. *)
Lemma late_subscribe_counterexample :
  ~ (forall w frameID callback w1 e1,
       reachable w ->
       goalUpdateRequested (this w) = false ->
       calls (env w) <> [] \/ currentTopic (this w) <> None ->
       tracked w frameID = false ->
       step (Subscribe frameID callback) w = Some (w1, e1) ->
       timers (env w1) = []).
Proof.
  intros H.
  assert (Hflag : goalUpdateRequested (this in_flight_world) = false)
    by (vm_compute; reflexivity).
  assert (Hcalls : calls (env in_flight_world) <> [])
    by (vm_compute; discriminate).
  assert (Hnew : tracked in_flight_world "b" = false)
    by (vm_compute; reflexivity).
  destruct (step (Subscribe "b" 2) in_flight_world) as [[w1 e1]|] eqn:S;
    [|vm_compute in S; discriminate S].
  pose proof (H _ _ _ _ _ (reachable_play _ reachable_fresh) Hflag
                (or_introl Hcalls) Hnew S) as Ht.
  vm_compute in S. injection S as <- _. discriminate Ht.
Qed.

(** The second request, evaluated: it names both frames. *)
Example late_subscribe_second_request :
  option_map (fun r => requests (snd r))
    (run [Subscribe "b" 2; TimerFires] in_flight_world)
  = Some [{| Msg.source_frames := ["a"; "b"];
             Msg.target_frame := "/base_link";
             Msg.angular_thres := 2;
             Msg.trans_thres := 0.01;
             Msg.rate := 10;
             Msg.timeout := {| Msg.secs := 2; Msg.nsecs := 0 |} |}].
Proof. reflexivity. Qed.

(** ** The active stream *)

(** C5: at every turn of the event loop at most one topic delivers to the
    client, and it is [currentTopic].  When a response arrives while a
    stream is attached, the client first unsubscribes the attached topic,
    then creates the topic named by the response and subscribes to it;
    afterwards the new topic is the only one delivering. *)
Theorem single_active_stream w :
  reachable w ->
  length (listening (env w)) <= 1 /\
  listening (env w) = stream_of (this w) /\
  (forall i response old w' e,
     currentTopic (this w) = Some old ->
     step (ServiceResponds i response) w = Some (w', e) ->
     exists t,
       e = [TopicUnsubscribe old; NewTopic t; TopicSubscribe t] /\
       name t = Msg.topic_name response /\
       messageType t = "tf2_web_republisher/TFArray" /\
       currentTopic (this w') = Some t /\
       listening (env w') = [t]).
Proof.
  intros Hr. pose proof (inv_stream (reachable_invariant Hr)) as Hs.
  split; [|split; [exact Hs|]].
  - rewrite Hs. unfold stream_of. destruct (currentTopic (this w)); simpl; lia.
  - intros i response old w' e Hold Hstep. simpl in Hstep.
    destruct (Nat.ltb i (length (calls (env w)))); [|discriminate].
    rewrite processResponse_eq in Hstep. simpl in Hstep.
    rewrite Hold, Hs in Hstep. unfold stream_of in Hstep. rewrite Hold in Hstep.
    simpl in Hstep. rewrite Nat.eqb_refl in Hstep. simpl in Hstep.
    injection Hstep as <- <-. eexists. repeat split.
Qed.

Lemma single_active_stream_witness :
  length (listening (env streaming_world)) <= 1 /\
  listening (env streaming_world) = [stream0] /\
  exists t,
    option_map snd
      (step (ServiceResponds 0 {| Msg.topic_name := "/tf_web_1" |}) streaming_world)
      = Some [TopicUnsubscribe stream0; NewTopic t; TopicSubscribe t] /\
    name t = "/tf_web_1".
Proof.
  destruct (@single_active_stream streaming_world
              (reachable_play _ reachable_fresh)) as [Hlen [Hl Hresp]].
  split; [exact Hlen|]. split; [exact Hl|].
  assert (Hc : currentTopic (this streaming_world) = Some stream0)
    by (vm_compute; reflexivity).
  destruct (step (ServiceResponds 0 {| Msg.topic_name := "/tf_web_1" |}) streaming_world)
    as [[w' e]|] eqn:S; [|vm_compute in S; discriminate S].
  destruct (Hresp _ _ _ _ _ Hc S) as [t [He [Hn _]]].
  exists t. split; [|exact Hn].
  simpl. f_equal. exact He.
Defined.

(** ** Frame records and their callbacks *)

(** C6: in every state the event loop can reach, a frame has a record
    exactly when it has a registered callback.  Unsubscribing the only
    callback of a frame deletes the record, cached transform included: a
    later [subscribe] of that frame calls nothing, schedules a request as
    for a new frame, and leaves a record with that one callback and no
    transform. *)
Theorem frame_record_iff_callback :
  (forall w, reachable w ->
     forall k, JsObject.get (frameInfos (this w)) k <> None <-> callbacks_of w k <> []) /\
  (forall w frameID callback info,
     JsObject.get (frameInfos (this w)) (remove_leading_slash frameID) = Some info ->
     cbs info = [callback] ->
     exists w1,
       step (Unsubscribe frameID callback) w = Some (w1, []) /\
       JsObject.get (frameInfos (this w1)) (remove_leading_slash frameID) = None /\
       forall callback',
         exists w2,
           step (Subscribe frameID callback') w1
             = Some (w2, if goalUpdateRequested (this w) then []
                         else [SetTimeout (goalUpdateDelay (this w))]) /\
           JsObject.get (frameInfos (this w2)) (remove_leading_slash frameID)
             = Some {| cbs := [callback']; transform := None |}).
Proof.
  split.
  - intros w Hr k. pose proof (inv_frames (reachable_invariant Hr)) as Hf.
    unfold callbacks_of.
    destruct (JsObject.get (frameInfos (this w)) k) as [info|] eqn:G.
    + apply JsObjectFacts.get_in in G. rewrite Forall_forall in Hf.
      specialize (Hf _ G). unfold has_callback in Hf. simpl in Hf.
      split; [intros _; exact Hf | discriminate].
    + tauto.
  - intros w f cb [l tr] G Hl. simpl in Hl. subst l.
    assert (Hin : In cb (cbs {| cbs := [cb]; transform := tr |})) by (simpl; auto).
    eexists. split; [simpl; rewrite (unsubscribe_registered_eq _ _ _ G Hin); reflexivity|].
    unfold unsubscribed_frames. simpl. rewrite Nat.eqb_refl. simpl.
    split; [apply JsObjectFacts.get_delete_same|].
    intros cb'. destruct (goalUpdateRequested (this w)) eqn:R; eexists;
      (split;
       [ rewrite subscribe_untracked_eq by (simpl; apply JsObjectFacts.get_delete_same);
         simpl; rewrite R; reflexivity
       | simpl; apply JsObjectFacts.get_set_same ]).
Qed.

Lemma frame_record_iff_callback_witness :
  (JsObject.get (frameInfos (this wheel_world)) "wheel" <> None
   <-> callbacks_of wheel_world "wheel" <> []) /\
  exists w1,
    step (Unsubscribe "/wheel" 1) wheel_world = Some (w1, []) /\
    JsObject.get (frameInfos (this w1)) "wheel" = None /\
    exists w2,
      step (Subscribe "wheel" 9) w1 = Some (w2, [SetTimeout 50]) /\
      JsObject.get (frameInfos (this w2)) "wheel"
        = Some {| cbs := [9]; transform := None |}.
Proof.
  destruct frame_record_iff_callback as [Hiff Hlast].
  split; [exact (Hiff wheel_world (reachable_play _ reachable_fresh) "wheel")|].
  destruct (Hlast wheel_world "/wheel" 1
              {| cbs := [1]; transform := Some wheel_transform |})
    as [w1 [Hu [Hg Hs]]]; [vm_compute; reflexivity | reflexivity |].
  exists w1. split; [exact Hu|]. split; [exact Hg|].
  destruct (Hs 9) as [w2 [Hs2 Hg2]]. exists w2. split; [exact Hs2 | exact Hg2].
Defined.

(** ** Frame ids and their keys *)

Lemma remove_leading_slash_slash s : remove_leading_slash (String "/" s) = s.
Proof. reflexivity. Qed.

Lemma remove_leading_slash_other s :
  Js.starts_with_slash s = false -> remove_leading_slash s = s.
Proof. unfold remove_leading_slash. now intros ->. Qed.

Lemma starts_with_slash_normalized f :
  Js.starts_with_slash (remove_leading_slash f) = double_slash f.
Proof.
  unfold remove_leading_slash, double_slash.
  destruct (Js.starts_with_slash f) eqn:E; [reflexivity | exact E].
Qed.

Lemma keys_delete_incl (V : Type) (o : JsObject.t V) k k' :
  In k' (JsObject.keys (JsObject.delete o k)) -> In k' (JsObject.keys o).
Proof.
  unfold JsObject.keys. induction o as [|[k0 v0] o IH]; simpl; [auto|].
  destruct (String.eqb k0 k); simpl; tauto.
Qed.

Lemma keys_processFeedback us w :
  JsObject.keys (frameInfos (this (fst (exec (processFeedback {| Msg.transforms := us |}) w))))
    = JsObject.keys (frameInfos (this w)).
Proof.
  revert w. induction us as [|u us IH]; intros w; [reflexivity|].
  rewrite processFeedback_cons.
  assert (H1 : JsObject.keys (frameInfos (this (fst (exec (processTransform u) w))))
               = JsObject.keys (frameInfos (this w))).
  { destruct (JsObject.get (frameInfos (this w))
                (remove_leading_slash (Msg.child_frame_id u))) as [info|] eqn:G.
    - rewrite (processTransform_tracked_eq _ _ G). simpl.
      apply (JsObjectFacts.keys_set_old _ _ _ G).
    - now rewrite (processTransform_untracked_eq _ _ G). }
  destruct (exec (processTransform u) w) as [w1 e1]. simpl in H1.
  specialize (IH w1).
  destruct (exec (processFeedback {| Msg.transforms := us |}) w1) as [w2 e2].
  simpl in *. congruence.
Qed.

(** A turn of the event loop adds at most the normalized id of a
    subscription to the keys. *)
Lemma keys_step i w w' e k :
  step i w = Some (w', e) ->
  In k (JsObject.keys (frameInfos (this w'))) ->
  In k (JsObject.keys (frameInfos (this w))) \/
  exists f cb, i = Subscribe f cb /\ k = remove_leading_slash f.
Proof.
  destruct i as [f cb | f cb | | i response | t tf]; simpl; intros Hstep Hk.
  - injection Hstep as Hx.
    destruct (JsObject.get (frameInfos (this w)) (remove_leading_slash f))
      as [info|] eqn:G.
    + rewrite (subscribe_tracked_eq _ _ _ G) in Hx. injection Hx as <- _.
      simpl in Hk. rewrite (JsObjectFacts.keys_set_old _ _ _ G) in Hk. now left.
    + rewrite (subscribe_untracked_eq _ _ _ G) in Hx.
      destruct (goalUpdateRequested (this w)); injection Hx as <- _;
        simpl in Hk; rewrite (JsObjectFacts.keys_set_new _ _ _ G) in Hk;
        apply in_app_or in Hk as [Hk | [<- | []]]; eauto.
  - left. injection Hstep as Hx.
    destruct (JsObject.get (frameInfos (this w)) (remove_leading_slash f))
      as [info|] eqn:G.
    + destruct (in_dec Nat.eq_dec cb (cbs info)) as [Hin | Hn].
      * rewrite (unsubscribe_registered_eq _ _ _ G Hin) in Hx.
        injection Hx as <- _. simpl in Hk. unfold unsubscribed_frames in Hk.
        destruct (Js.splice1 _ (cbs info)).
        -- exact (keys_delete_incl _ _ _ Hk).
        -- now rewrite (JsObjectFacts.keys_set_old _ _ _ G) in Hk.
      * rewrite (unsubscribe_unknown_eq _ _ _ G Hn) in Hx. now injection Hx as <- _.
    + rewrite (unsubscribe_untracked_eq _ _ _ G) in Hx. now injection Hx as <- _.
  - left. destruct (timers (env w)); [discriminate|].
    rewrite updateGoal_eq in Hstep. now injection Hstep as <- _.
  - left. destruct (Nat.ltb i (length (calls (env w)))); [|discriminate].
    rewrite processResponse_eq in Hstep. now injection Hstep as <- _.
  - left. destruct (is_listening (env w) t); [|discriminate].
    injection Hstep as Hx. destruct tf as [us].
    pose proof (keys_processFeedback us w) as Hkeys.
    rewrite Hx in Hkeys. simpl in Hkeys. now rewrite <- Hkeys.
Qed.

(** C7, as stated, fails in its last part: [subscribe("//odom", cb)] stores
    the key "/odom". *)
Lemma slash_key_counterexample :
  ~ (forall w, reachable w ->
       forall k, In k (JsObject.keys (frameInfos (this w))) ->
                 Js.starts_with_slash k = false).
Proof.
  intros H.
  assert (Hk : In "/odom" (JsObject.keys (frameInfos (this (play [Subscribe "//odom" 1] fresh)))))
    by (vm_compute; auto).
  specialize (H _ (reachable_play [Subscribe "//odom" 1] reachable_fresh) _ Hk).
  discriminate H.
Qed.

(** C7, amended: [subscribe] and [unsubscribe] remove exactly one leading
    slash from the frame id before they consult the frame map, so that "/s"
    and "s" denote the same record whenever "s" has no leading slash.  The
    key stored for a frame id is the id without that one slash: as long as
    no frame id passed to [subscribe] begins with two slashes, no key of the
    frame map begins with a slash. *)
Theorem frame_ids_are_normalized :
  (forall s, remove_leading_slash (String "/" s) = s) /\
  (forall s, Js.starts_with_slash s = false -> remove_leading_slash s = s) /\
  (forall w s callback,
     Js.starts_with_slash s = false ->
     step (Subscribe (String "/" s) callback) w = step (Subscribe s callback) w /\
     step (Unsubscribe (String "/" s) callback) w = step (Unsubscribe s callback) w) /\
  (forall options w0 inputs w e,
     boot options = Some w0 ->
     run inputs w0 = Some (w, e) ->
     forallb no_double_slash inputs = true ->
     forall k, In k (JsObject.keys (frameInfos (this w))) ->
               Js.starts_with_slash k = false).
Proof.
  split; [exact remove_leading_slash_slash|].
  split; [exact remove_leading_slash_other|].
  split.
  - intros w s cb Hs. simpl. unfold subscribe, unsubscribe.
    rewrite remove_leading_slash_slash, (remove_leading_slash_other _ Hs).
    split; reflexivity.
  - intros options w0 inputs w e Hb. unfold boot, new_TFClient in Hb.
    destruct (Options.ros _); [|discriminate]. injection Hb as <-.
    set (w0 := {| this := _; env := empty_env |}).
    assert (H0 : forall k, In k (JsObject.keys (frameInfos (this w0))) ->
                           Js.starts_with_slash k = false) by (simpl; contradiction).
    clearbody w0. revert w0 w e H0.
    induction inputs as [|i rest IH]; intros w0 w e H0 Hrun Hok k Hk.
    + injection Hrun as <- _. now apply H0.
    + simpl in Hrun, Hok. apply andb_prop in Hok as [Hi Hrest].
      destruct (step i w0) as [[w1 e1]|] eqn:S; [|discriminate].
      destruct (run rest w1) as [[w2 e2]|] eqn:R; [|discriminate].
      injection Hrun as <- _.
      apply (IH w1 w2 e2); auto.
      intros k' Hk'. destruct (@keys_step _ _ _ _ _ S Hk') as [Hold | [f [cb [-> ->]]]].
      * now apply H0.
      * rewrite starts_with_slash_normalized. simpl in Hi.
        now apply negb_true_iff in Hi.
Qed.

Lemma frame_ids_are_normalized_witness :
  step (Subscribe "/odom" 1) fresh = step (Subscribe "odom" 1) fresh /\
  step (Unsubscribe "/odom" 1) wheel_world = step (Unsubscribe "odom" 1) wheel_world /\
  forall k,
    In k (JsObject.keys (frameInfos (this (play [Subscribe "/odom" 1; Subscribe "map" 2] fresh)))) ->
    Js.starts_with_slash k = false.
Proof.
  destruct frame_ids_are_normalized as [_ [_ [Hsame Hkeys]]].
  split; [exact (proj1 (Hsame fresh "odom" 1 eq_refl))|].
  split; [exact (proj2 (Hsame wheel_world "odom" 1 eq_refl))|].
  apply (Hkeys (Some (Options.defaults (Connection 0))) fresh
           [Subscribe "/odom" 1; Subscribe "map" 2] _ [SetTimeout 50]).
  - reflexivity.
  - vm_compute; reflexivity.
  - reflexivity.
Defined.

(** * Further properties of the client *)

(** ** Removing a callback *)

Lemma splice1_indexOf (l : list Callback) (x : Callback) :
  In x l -> Js.splice1 (Z.to_nat (Js.indexOf l x)) l = remove_first x l.
Proof.
  induction l as [|y l IH]; simpl; [contradiction|].
  intros H. destruct (Nat.eqb y x) eqn:E; [reflexivity|].
  apply Nat.eqb_neq in E. destruct H as [H | H]; [contradiction|].
  destruct (indexOf_present _ _ H) as [Hge _].
  destruct (Js.indexOf l x <? 0)%Z eqn:L; [apply Z.ltb_lt in L; lia|].
  replace (Z.to_nat (Js.indexOf l x + 1)) with (S (Z.to_nat (Js.indexOf l x))) by lia.
  simpl. now rewrite IH.
Qed.

Lemma remove_first_last l x : ~ In x l -> remove_first x (l ++ [x]) = l.
Proof.
  induction l as [|y l IH]; simpl; intros H.
  - now rewrite Nat.eqb_refl.
  - destruct (Nat.eqb y x) eqn:E.
    + apply Nat.eqb_eq in E. tauto.
    + rewrite IH by tauto. reflexivity.
Qed.

Lemma remove_first_length l x : In x l -> S (length (remove_first x l)) = length l.
Proof.
  induction l as [|y l IH]; simpl; [contradiction|].
  intros H. destruct (Nat.eqb y x) eqn:E; [reflexivity|].
  apply Nat.eqb_neq in E. destruct H as [H | H]; [contradiction|].
  simpl. now rewrite IH.
Qed.

Lemma remove_first_count l x y :
  count_occ Nat.eq_dec (remove_first x l) y
    = if Nat.eqb x y then pred (count_occ Nat.eq_dec l y) else count_occ Nat.eq_dec l y.
Proof.
  induction l as [|z l IH]; simpl; [now destruct (Nat.eqb x y)|].
  destruct (Nat.eqb z x) eqn:E.
  - apply Nat.eqb_eq in E. subst z.
    destruct (Nat.eq_dec x y) as [-> | Hne].
    + now rewrite Nat.eqb_refl.
    + apply Nat.eqb_neq in Hne. now rewrite Hne.
  - simpl. rewrite IH. apply Nat.eqb_neq in E.
    destruct (Nat.eq_dec z y) as [-> | Hne]; [|reflexivity].
    destruct (Nat.eqb x y) eqn:E'; [|reflexivity].
    apply Nat.eqb_eq in E'. congruence.
Qed.

Lemma set_same (V : Type) (o : JsObject.t V) k v :
  JsObject.get o k = Some v -> JsObject.set o k v = o.
Proof.
  induction o as [|[k0 v0] o IH]; simpl; [discriminate|].
  destruct (String.eqb k0 k) eqn:E.
  - now intros [= ->].
  - intros H. now rewrite IH.
Qed.

Lemma delete_absent (V : Type) (o : JsObject.t V) k :
  JsObject.get o k = None -> JsObject.delete o k = o.
Proof.
  induction o as [|[k0 v0] o IH]; simpl; [reflexivity|].
  destruct (String.eqb k0 k); [discriminate|].
  intros H. now rewrite IH.
Qed.

(** What [unsubscribe] never touches. *)
Lemma unsubscribe_frame w f cb :
  exists w',
    exec (unsubscribe f cb) w = (w', []) /\
    env w' = env w /\
    currentTopic (this w') = currentTopic (this w) /\
    goalUpdateRequested (this w') = goalUpdateRequested (this w) /\
    config (this w') = config (this w).
Proof.
  destruct (JsObject.get (frameInfos (this w)) (remove_leading_slash f))
    as [info|] eqn:G.
  - destruct (in_dec Nat.eq_dec cb (cbs info)) as [Hin | Hn].
    + rewrite (unsubscribe_registered_eq _ _ _ G Hin). eexists.
      split; [reflexivity|]. repeat split.
    + rewrite (unsubscribe_unknown_eq _ _ _ G Hn). exists w. repeat split.
  - rewrite (unsubscribe_untracked_eq _ _ _ G). exists w. repeat split.
Qed.

(** X1: [unsubscribe] never tells the republisher anything.  Any sequence of
    [unsubscribe] calls, even one that removes every frame, performs no
    effect: no timer, no service call, no topic operation.  The timers, the
    open calls, the attached stream, [goalUpdateRequested] and the
    configuration stay as they were. *)
Theorem unsubscribe_never_acts l w :
  exists w',
    run (unsubscribe_inputs l) w = Some (w', []) /\
    env w' = env w /\
    currentTopic (this w') = currentTopic (this w) /\
    goalUpdateRequested (this w') = goalUpdateRequested (this w) /\
    config (this w') = config (this w).
Proof.
  revert w. induction l as [|[f cb] l IH]; intros w.
  - exists w. repeat split.
  - destruct (unsubscribe_frame w f cb) as [w1 [Hx [He [Hc [Hg Hcfg]]]]].
    destruct (IH w1) as [w' [Hrun [He' [Hc' [Hg' Hcfg']]]]].
    change (run (unsubscribe_inputs ((f, cb) :: l)) w)
      with (match Some (exec (unsubscribe f cb) w) with
            | Some (w1, e1) =>
                match run (unsubscribe_inputs l) w1 with
                | Some (w2, e2) => Some (w2, e1 ++ e2)
                | None => None
                end
            | None => None
            end).
    rewrite Hx, Hrun. exists w'. repeat split; congruence.
Qed.

(** X2: [unsubscribe] of a registered callback removes its first occurrence
    only: the other callbacks of the frame keep their order, the cached
    transform is kept while a callback is left, the record disappears with
    the last one, the other frames are untouched, and [needUpdate] is set. *)
Theorem unsubscribe_removes_first w frameID callback info :
  JsObject.get (frameInfos (this w)) (remove_leading_slash frameID) = Some info ->
  In callback (cbs info) ->
  exists w',
    step (Unsubscribe frameID callback) w = Some (w', []) /\
    callbacks_of w' (remove_leading_slash frameID) = remove_first callback (cbs info) /\
    S (length (callbacks_of w' (remove_leading_slash frameID))) = length (cbs info) /\
    JsObject.get (frameInfos (this w')) (remove_leading_slash frameID)
      = match remove_first callback (cbs info) with
        | [] => None
        | l => Some {| cbs := l; transform := transform info |}
        end /\
    (forall k, k <> remove_leading_slash frameID ->
       JsObject.get (frameInfos (this w')) k = JsObject.get (frameInfos (this w)) k) /\
    needUpdate (this w') = Some true.
Proof.
  intros G Hin.
  change (step (Unsubscribe frameID callback) w)
    with (Some (exec (unsubscribe frameID callback) w)).
  rewrite (unsubscribe_registered_eq _ _ _ G Hin).
  eexists. split; [reflexivity|].
  unfold callbacks_of, unsubscribed_frames.
  cbn [this frameInfos needUpdate set_needUpdate set_frameInfos].
  rewrite (splice1_indexOf _ _ Hin).
  pose proof (remove_first_length _ _ Hin) as Hlen.
  destruct (remove_first callback (cbs info)) as [|c l] eqn:R.
  - rewrite JsObjectFacts.get_delete_same. repeat split; try assumption.
    intros k Hk. apply JsObjectFacts.get_delete_other. congruence.
  - rewrite JsObjectFacts.get_set_same. simpl. repeat split; try assumption.
    intros k Hk. apply JsObjectFacts.get_set_other. congruence.
Qed.

Lemma unsubscribe_removes_first_witness :
  JsObject.get (frameInfos (this twice_world)) (remove_leading_slash "/wheel")
    = Some {| cbs := [1; 2; 1]; transform := None |} /\
  exists w',
    step (Unsubscribe "/wheel" 1) twice_world = Some (w', []) /\
    callbacks_of w' "wheel" = [2; 1].
Proof.
  split; [reflexivity|].
  destruct (@unsubscribe_removes_first twice_world "/wheel" 1
              {| cbs := [1; 2; 1]; transform := None |})
    as [w' [Hs [Hc _]]]; [reflexivity | simpl; auto |].
  exists w'. split; [exact Hs | exact Hc].
Defined.

(** ** Subscribing again, and undoing a subscription *)

Lemma step_subscribe w f cb :
  step (Subscribe f cb) w = Some (exec (subscribe f cb) w).
Proof. reflexivity. Qed.

Lemma step_unsubscribe w f cb :
  step (Unsubscribe f cb) w = Some (exec (unsubscribe f cb) w).
Proof. reflexivity. Qed.

Lemma run_cons i rest w :
  run (i :: rest) w =
    match step i w with
    | Some (w1, e1) =>
        match run rest w1 with
        | Some (w2, e2) => Some (w2, e1 ++ e2)
        | None => None
        end
    | None => None
    end.
Proof. reflexivity. Qed.

Lemma subscribe_callbacks w f cb :
  callbacks_of (fst (exec (subscribe f cb) w)) (remove_leading_slash f)
    = callbacks_of w (remove_leading_slash f) ++ [cb].
Proof.
  unfold callbacks_of.
  destruct (JsObject.get (frameInfos (this w)) (remove_leading_slash f))
    as [info|] eqn:G.
  - rewrite (subscribe_tracked_eq _ _ _ G). simpl.
    now rewrite JsObjectFacts.get_set_same.
  - rewrite (subscribe_untracked_eq _ _ _ G).
    destruct (goalUpdateRequested (this w)); simpl;
      now rewrite JsObjectFacts.get_set_same.
Qed.

Lemma invoked_deliveries w u :
  invoked (deliveries w u)
    = callbacks_of w (remove_leading_slash (Msg.child_frame_id u)).
Proof.
  unfold deliveries, cbs_of, callbacks_of.
  destruct (JsObject.get _ _) as [info|]; [|reflexivity].
  induction (cbs info) as [|cb l IH]; [reflexivity|].
  simpl. now rewrite IH.
Qed.

(** ** What a stream message changes *)

Lemma same_but_cached_refl w : same_but_cached w w.
Proof. split; reflexivity. Qed.

Lemma same_but_cached_trans w1 w2 w3 :
  same_but_cached w1 w2 -> same_but_cached w2 w3 -> same_but_cached w1 w3.
Proof.
  intros [E1 C1 R1 T1 N1 K1 B1] [E2 C2 R2 T2 N2 K2 B2].
  split; try congruence.
Qed.

Lemma processTransform_same_but_cached w u :
  same_but_cached w (fst (exec (processTransform u) w)).
Proof.
  split; try apply cbs_of_processTransform;
  destruct (JsObject.get (frameInfos (this w))
              (remove_leading_slash (Msg.child_frame_id u))) as [info|] eqn:G;
  rewrite ?(processTransform_tracked_eq _ _ G),
          ?(processTransform_untracked_eq _ _ G); try reflexivity.
  simpl. apply (JsObjectFacts.keys_set_old _ _ _ G).
Qed.

Lemma processTransform_cached w u k :
  cached (fst (exec (processTransform u) w)) k
    = if String.eqb (remove_leading_slash (Msg.child_frame_id u)) k
      then match JsObject.get (frameInfos (this w)) k with
           | Some _ => Some (new_Transform (Msg.transform u))
           | None => None
           end
      else cached w k.
Proof.
  unfold cached.
  destruct (String.eqb (remove_leading_slash (Msg.child_frame_id u)) k) eqn:E.
  - apply String.eqb_eq in E. subst k.
    destruct (JsObject.get (frameInfos (this w))
                (remove_leading_slash (Msg.child_frame_id u))) as [info|] eqn:G.
    + rewrite (processTransform_tracked_eq _ _ G). simpl.
      now rewrite JsObjectFacts.get_set_same.
    + rewrite (processTransform_untracked_eq _ _ G). simpl. now rewrite G.
  - apply String.eqb_neq in E.
    destruct (JsObject.get (frameInfos (this w))
                (remove_leading_slash (Msg.child_frame_id u))) as [info|] eqn:G.
    + rewrite (processTransform_tracked_eq _ _ G). simpl.
      now rewrite JsObjectFacts.get_set_other.
    + now rewrite (processTransform_untracked_eq _ _ G).
Qed.

Lemma cbs_of_tracked w w' k :
  cbs_of w' k = cbs_of w k ->
  (JsObject.get (frameInfos (this w')) k = None
   <-> JsObject.get (frameInfos (this w)) k = None).
Proof.
  unfold cbs_of.
  destruct (JsObject.get (frameInfos (this w')) k),
           (JsObject.get (frameInfos (this w)) k); intros H; split; congruence.
Qed.

Lemma processFeedback_frame us : forall w,
  same_but_cached w (fst (exec (processFeedback {| Msg.transforms := us |}) w)) /\
  forall k,
    cached (fst (exec (processFeedback {| Msg.transforms := us |}) w)) k
      = match JsObject.get (frameInfos (this w)) k, last_update k us with
        | Some _, Some p => Some (new_Transform p)
        | _, _ => cached w k
        end.
Proof.
  induction us as [|u us IH]; intros w.
  - split; [apply same_but_cached_refl|]. intros k. simpl.
    now destruct (JsObject.get (frameInfos (this w)) k).
  - rewrite processFeedback_cons.
    pose proof (processTransform_same_but_cached w u) as H1.
    pose proof (processTransform_cached w u) as Hc1.
    destruct (exec (processTransform u) w) as [w1 e1]. simpl in H1, Hc1.
    destruct (IH w1) as [H2 Hc2].
    destruct (exec (processFeedback {| Msg.transforms := us |}) w1) as [w2 e2].
    simpl in H2, Hc2 |- *.
    split; [exact (same_but_cached_trans H1 H2)|].
    intros k. rewrite Hc2, Hc1.
    pose proof (cbs_of_tracked _ _ _ (sbc_cbs H1 k)) as Ht.
    destruct (JsObject.get (frameInfos (this w1)) k) as [i1|] eqn:G1;
      destruct (JsObject.get (frameInfos (this w)) k) as [i0|] eqn:G0;
      try (exfalso; destruct Ht as [Ha Hb];
           first [ specialize (Ha eq_refl); discriminate
                 | specialize (Hb eq_refl); discriminate ]);
      destruct (last_update k us);
      destruct (String.eqb (remove_leading_slash (Msg.child_frame_id u)) k) eqn:E;
      try reflexivity.
    all: unfold cached; try rewrite G0; reflexivity.
Qed.

(** ** The frames a request names *)









(** ** What one turn of the event loop does to the environment *)

Lemma deliveries_invoke w us :
  forallb is_invoke (flat_map (deliveries w) us) = true.
Proof.
  induction us as [|u us IH]; [reflexivity|].
  simpl. rewrite forallb_app, IH, andb_true_r. unfold deliveries.
  destruct (cbs_of w _) as [l|]; [|reflexivity].
  induction l as [|cb l IHl]; [reflexivity | exact IHl].
Qed.

(** The effects and the environment after each kind of event. *)
Lemma step_shape i w w' e :
  step i w = Some (w', e) ->
  config (this w') = config (this w) /\
  match i with
  | Subscribe _ _ =>
      (e = [SetTimeout (goalUpdateDelay (this w))] /\
       env w' = set_timers (env w) (timers (env w) ++ [goalUpdateDelay (this w)])) \/
      (forallb is_invoke e = true /\ env w' = env w)
  | Unsubscribe _ _ => e = [] /\ env w' = env w
  | TimerFires =>
      exists d rest,
        timers (env w) = d :: rest /\
        e = [CallService (serviceClient (this w)) (goal_request (this w))] /\
        env w' = set_calls (set_timers (env w) rest)
                   (calls (env w) ++ [goal_request (this w)])
  | ServiceResponds n response =>
      n < length (calls (env w)) /\
      exists t,
        messageType t = "tf2_web_republisher/TFArray" /\
        timers (env w') = timers (env w) /\
        calls (env w') = Js.splice1 n (calls (env w)) /\
        match currentTopic (this w) with
        | Some old =>
            e = [TopicUnsubscribe old; NewTopic t; TopicSubscribe t] /\
            listening (env w')
              = filter (fun u => negb (Nat.eqb (topic_id u) (topic_id old)))
                       (listening (env w)) ++ [t]
        | None =>
            e = [NewTopic t; TopicSubscribe t] /\
            listening (env w') = listening (env w) ++ [t]
        end
  | TopicDelivers _ _ => forallb is_invoke e = true /\ env w' = env w
  end.
Proof.
  destruct i as [f cb | f cb | | n response | t tf]; simpl; intros Hstep.
  - injection Hstep as Hx.
    destruct (JsObject.get (frameInfos (this w)) (remove_leading_slash f))
      as [info|] eqn:G.
    + rewrite (subscribe_tracked_eq _ _ _ G) in Hx. injection Hx as <- <-.
      split; [reflexivity|]. right. split; [|reflexivity].
      now destruct (transform info).
    + rewrite (subscribe_untracked_eq _ _ _ G) in Hx.
      destruct (goalUpdateRequested (this w)); injection Hx as <- <-;
        (split; [reflexivity|]); [right | left]; split; reflexivity.
  - destruct (unsubscribe_frame w f cb) as [w1 [Hx [He [_ [_ Hc]]]]].
    rewrite Hx in Hstep. injection Hstep as <- <-. auto.
  - destruct (timers (env w)) as [|d rest] eqn:T; [discriminate|].
    rewrite updateGoal_eq in Hstep. injection Hstep as <- <-.
    split; [reflexivity|]. exists d, rest. repeat split.
  - destruct (Nat.ltb n (length (calls (env w)))) eqn:L; [|discriminate].
    apply Nat.ltb_lt in L.
    rewrite processResponse_eq in Hstep. injection Hstep as <- <-.
    split; [reflexivity|]. split; [exact L|].
    exists {| topic_id := topics_made (env w);
              name := Msg.topic_name response;
              messageType := "tf2_web_republisher/TFArray" |}.
    split; [reflexivity|]. split; [reflexivity|]. split; [reflexivity|].
    simpl. destruct (currentTopic (this w)); split; reflexivity.
  - destruct (is_listening (env w) t); [|discriminate].
    injection Hstep as Hx. destruct tf as [us].
    pose proof (processFeedback_effects us w) as He.
    destruct (processFeedback_frame us w) as [Hs _].
    rewrite Hx in He, Hs. simpl in He, Hs. subst e.
    split; [exact (sbc_config Hs)|].
    split; [apply deliveries_invoke | exact (sbc_env Hs)].
Qed.

(** ** The configuration never changes *)

Lemma invoke_configured c e : forallb is_invoke e = true -> Forall (configured c) e.
Proof.
  induction e as [|x e IH]; simpl; [constructor|].
  intros H. apply andb_prop in H as [Hx He].
  constructor; [|auto]. destruct x; try discriminate. exact I.
Qed.

Lemma configured_config c c' e : config c = config c' -> configured c e -> configured c' e.
Proof.
  unfold config. intros [= Hr Hf Ha Ht Hra Hd Hto Hs].
  destruct e; simpl; try tauto; congruence.
Qed.

Lemma step_configured i w w' e :
  step i w = Some (w', e) ->
  config (this w') = config (this w) /\ Forall (configured (this w)) e.
Proof.
  intros Hstep. destruct (step_shape _ _ Hstep) as [Hc Hs]. split; [exact Hc|].
  destruct i as [f cb | f cb | | n response | t tf].
  - destruct Hs as [[-> _] | [Hi _]]; [|now apply invoke_configured].
    repeat constructor.
  - destruct Hs as [-> _]. constructor.
  - destruct Hs as [d [rest [_ [-> _]]]]. repeat constructor.
  - destruct Hs as [_ [t [Hm [_ [_ Hs]]]]].
    destruct (currentTopic (this w)); destruct Hs as [-> _];
      repeat constructor; exact Hm.
  - destruct Hs as [Hi _]. now apply invoke_configured.
Qed.

(** X7: nothing changes the configuration after construction.  Along any
    sequence of events the fixed frame, the thresholds, the rate, the delay,
    the timeout and the service client stay as [w] has them; every timer is
    scheduled with that delay, every request goes to that service with that
    target frame, thresholds, rate and timeout, and every topic created has
    the message type tf2_web_republisher/TFArray. *)
Theorem configuration_is_fixed inputs w w' e :
  run inputs w = Some (w', e) ->
  config (this w') = config (this w) /\ Forall (configured (this w)) e.
Proof.
  revert w w' e. induction inputs as [|i rest IH]; intros w w' e Hrun.
  - injection Hrun as <- <-. split; [reflexivity | constructor].
  - rewrite run_cons in Hrun.
    destruct (step i w) as [[w1 e1]|] eqn:S; [|discriminate].
    destruct (run rest w1) as [[w2 e2]|] eqn:R; [|discriminate].
    injection Hrun as <- <-.
    destruct (step_configured _ _ S) as [Hc1 Hf1].
    destruct (IH _ _ _ R) as [Hc2 Hf2].
    split; [congruence|]. apply Forall_app. split; [exact Hf1|].
    eapply Forall_impl; [|exact Hf2].
    intros x. now apply configured_config.
Qed.

Lemma configuration_is_fixed_witness :
  boot (Some custom_options) = Some custom_world /\
  exists w' e,
    run session custom_world = Some (w', e) /\
    config (this w') = config custom_client /\
    Forall (configured custom_client) e /\
    length e = 10.
Proof.
  split; [vm_compute; reflexivity|].
  destruct (run session custom_world) as [[w' e]|] eqn:R;
    [|vm_compute in R; discriminate R].
  destruct (@configuration_is_fixed session custom_world w' e R) as [Hc Hf].
  exists w', e. split; [reflexivity|]. split; [exact Hc|]. split; [exact Hf|].
  vm_compute in R. injection R as _ <-. reflexivity.
Defined.

(** ** Timers, requests, responses and streams add up *)

Lemma count_effects_app p e1 e2 :
  count_effects p (e1 ++ e2) = count_effects p e1 + count_effects p e2.
Proof. unfold count_effects. now rewrite filter_app, length_app. Qed.

Lemma invoke_only e :
  forallb is_invoke e = true ->
  timeouts e = 0 /\ requests e = [] /\
  count_effects is_new_topic e = 0 /\
  count_effects is_topic_subscribe e = 0 /\
  count_effects is_topic_unsubscribe e = 0.
Proof.
  induction e as [|x e IH]; simpl; [repeat split|].
  intros H. apply andb_prop in H as [Hx He].
  destruct x; try discriminate. exact (IH He).
Qed.

Lemma step_balance i w w' e :
  step i w = Some (w', e) ->
  length (timers (env w)) + timeouts e
    = length (requests e) + length (timers (env w')) /\
  length (calls (env w)) + length (requests e)
    = count_effects is_new_topic e + length (calls (env w')) /\
  count_effects is_topic_subscribe e = count_effects is_new_topic e.
Proof.
  intros Hstep. destruct (step_shape _ _ Hstep) as [_ Hs].
  destruct i as [f cb | f cb | | n response | t tf].
  - destruct Hs as [[-> ->] | [Hi ->]].
    + unfold timeouts, count_effects. simpl. rewrite length_app. simpl.
      repeat split; lia.
    + destruct (invoke_only _ Hi) as [-> [-> [-> [-> _]]]]. simpl. lia.
  - destruct Hs as [-> ->]. unfold timeouts, count_effects. simpl. lia.
  - destruct Hs as [d [rest [-> [-> ->]]]].
    unfold timeouts, count_effects. simpl. rewrite length_app. simpl.
    repeat split; lia.
  - destruct Hs as [Hn [t [_ [-> [-> Hs]]]]].
    pose proof (splice1_length _ Hn) as Hl.
    destruct (currentTopic (this w)); destruct Hs as [-> _];
      unfold timeouts, count_effects; simpl; repeat split; lia.
  - destruct Hs as [Hi ->].
    destruct (invoke_only _ Hi) as [-> [-> [-> [-> _]]]]. simpl. lia.
Qed.

(** X8: timers, requests and responses add up.  Along any sequence of
    events, every request was sent by a timer that fired and every topic was
    created by a response to a request: the timers scheduled are those that
    sent a request plus those still waiting, the requests sent are those
    answered (one topic created each) plus those still open, and every topic
    created was subscribed to. *)
Theorem timers_requests_balance inputs w w' e :
  run inputs w = Some (w', e) ->
  length (timers (env w)) + timeouts e
    = length (requests e) + length (timers (env w')) /\
  length (calls (env w)) + length (requests e)
    = count_effects is_new_topic e + length (calls (env w')) /\
  count_effects is_topic_subscribe e = count_effects is_new_topic e.
Proof.
  revert w w' e. induction inputs as [|i rest IH]; intros w w' e Hrun.
  - injection Hrun as <- <-. unfold timeouts, count_effects. simpl.
    repeat split; lia.
  - rewrite run_cons in Hrun.
    destruct (step i w) as [[w1 e1]|] eqn:S; [|discriminate].
    destruct (run rest w1) as [[w2 e2]|] eqn:R; [|discriminate].
    injection Hrun as <- <-.
    destruct (step_balance _ _ S) as [Ha [Hb Hc]].
    destruct (IH _ _ _ R) as [Ha' [Hb' Hc']].
    rewrite timeouts_app, requests_app, length_app, !count_effects_app.
    repeat split; lia.
Qed.

Lemma timers_requests_balance_witness :
  exists w' e,
    run session fresh = Some (w', e) /\
    length (timers (env fresh)) + timeouts e
      = length (requests e) + length (timers (env w')) /\
    length (calls (env fresh)) + length (requests e)
      = count_effects is_new_topic e + length (calls (env w')) /\
    timeouts e = 2 /\ count_effects is_new_topic e = 2.
Proof.
  destruct (run session fresh) as [[w' e]|] eqn:R;
    [|vm_compute in R; discriminate R].
  destruct (@timers_requests_balance session fresh w' e R) as [Ha [Hb _]].
  exists w', e. split; [reflexivity|]. split; [exact Ha|]. split; [exact Hb|].
  vm_compute in R. injection R as _ <-. split; reflexivity.
Defined.

Lemma step_streams i w w' e :
  invariant w ->
  step i w = Some (w', e) ->
  length (listening (env w)) + count_effects is_topic_subscribe e
    = count_effects is_topic_unsubscribe e + length (listening (env w')).
Proof.
  intros Hinv Hstep. destruct (step_shape _ _ Hstep) as [_ Hs].
  pose proof (inv_stream Hinv) as Hl. unfold stream_of in Hl.
  destruct i as [f cb | f cb | | n response | t tf].
  - destruct Hs as [[-> ->] | [Hi ->]]; [unfold count_effects; simpl; lia|].
    destruct (invoke_only _ Hi) as [_ [_ [_ [-> ->]]]]. lia.
  - destruct Hs as [-> ->]. unfold count_effects; simpl; lia.
  - destruct Hs as [d [rest [_ [-> ->]]]]. unfold count_effects; simpl; lia.
  - destruct Hs as [_ [t [_ [_ [_ Hs]]]]].
    destruct (currentTopic (this w)) as [old|]; destruct Hs as [-> ->];
      rewrite Hl; unfold count_effects; simpl; rewrite ?Nat.eqb_refl; simpl; lia.
  - destruct Hs as [Hi ->].
    destruct (invoke_only _ Hi) as [_ [_ [_ [-> ->]]]]. lia.
Qed.

(** X9: no stream subscription is leaked.  From a state the event loop can
    reach, along any sequence of events, every topic the client subscribed
    to has been unsubscribed, except the one still attached; at most one is
    attached. *)
Theorem streams_balance inputs w w' e :
  reachable w ->
  run inputs w = Some (w', e) ->
  length (listening (env w)) + count_effects is_topic_subscribe e
    = count_effects is_topic_unsubscribe e + length (listening (env w')) /\
  length (listening (env w')) <= 1.
Proof.
  intros Hr Hrun.
  assert (H : reachable w' /\
              length (listening (env w)) + count_effects is_topic_subscribe e
              = count_effects is_topic_unsubscribe e + length (listening (env w'))).
  { revert w w' e Hr Hrun. induction inputs as [|i rest IH]; intros w w' e Hr Hrun.
    - injection Hrun as <- <-. split; [assumption|].
      unfold count_effects. simpl. lia.
    - rewrite run_cons in Hrun.
      destruct (step i w) as [[w1 e1]|] eqn:S; [|discriminate].
      destruct (run rest w1) as [[w2 e2]|] eqn:R; [|discriminate].
      injection Hrun as <- <-.
      pose proof (@step_streams _ _ _ _ (reachable_invariant Hr) S) as H1.
      destruct (IH _ _ _ (@reach_step w i w1 e1 Hr S) R) as [Hr2 H2].
      split; [exact Hr2|]. rewrite !count_effects_app. lia. }
  destruct H as [Hr' Hb]. split; [exact Hb|].
  rewrite (inv_stream (reachable_invariant Hr')). unfold stream_of.
  destruct (currentTopic (this w')); simpl; lia.
Qed.

Lemma streams_balance_witness :
  exists w' e,
    run session fresh = Some (w', e) /\
    length (listening (env fresh)) + count_effects is_topic_subscribe e
      = count_effects is_topic_unsubscribe e + length (listening (env w')) /\
    length (listening (env w')) <= 1 /\
    count_effects is_topic_subscribe e = 2 /\
    count_effects is_topic_unsubscribe e = 1.
Proof.
  destruct (run session fresh) as [[w' e]|] eqn:R;
    [|vm_compute in R; discriminate R].
  destruct (@streams_balance session fresh w' e reachable_fresh R) as [Hb Hl].
  exists w', e. split; [reflexivity|]. split; [exact Hb|]. split; [exact Hl|].
  vm_compute in R. injection R as _ <-. split; reflexivity.
Defined.


(** ** Where callbacks and transforms come from *)

Section Provenance.
Variable C : Callback -> Prop.
Variable T : Transform -> Prop.








End Provenance.





(** ** The flag set by [unsubscribe] *)

Lemma subscribe_forget w f cb :
  forget_needUpdate (Some (exec (subscribe f cb) (with_needUpdate None w)))
    = forget_needUpdate (Some (exec (subscribe f cb) w)).
Proof.
  destruct (JsObject.get (frameInfos (this w)) (remove_leading_slash f))
    as [info|] eqn:G.
  - rewrite (@subscribe_tracked_eq (with_needUpdate None w) f cb info G),
            (subscribe_tracked_eq _ _ _ G). reflexivity.
  - rewrite (@subscribe_untracked_eq (with_needUpdate None w) f cb G),
            (subscribe_untracked_eq _ _ _ G). simpl.
    destruct (goalUpdateRequested (this w)); reflexivity.
Qed.

Lemma unsubscribe_forget w f cb :
  forget_needUpdate (Some (exec (unsubscribe f cb) (with_needUpdate None w)))
    = forget_needUpdate (Some (exec (unsubscribe f cb) w)).
Proof.
  destruct (JsObject.get (frameInfos (this w)) (remove_leading_slash f))
    as [info|] eqn:G.
  - destruct (in_dec Nat.eq_dec cb (cbs info)) as [Hin | Hn].
    + rewrite (@unsubscribe_registered_eq (with_needUpdate None w) f cb info G Hin),
              (unsubscribe_registered_eq _ _ _ G Hin). reflexivity.
    + rewrite (@unsubscribe_unknown_eq (with_needUpdate None w) f cb info G Hn),
              (unsubscribe_unknown_eq _ _ _ G Hn). reflexivity.
  - rewrite (@unsubscribe_untracked_eq (with_needUpdate None w) f cb G),
            (unsubscribe_untracked_eq _ _ _ G). reflexivity.
Qed.

Lemma processTransform_forget w u :
  forget_needUpdate (Some (exec (processTransform u) (with_needUpdate None w)))
    = forget_needUpdate (Some (exec (processTransform u) w)).
Proof.
  destruct (JsObject.get (frameInfos (this w))
              (remove_leading_slash (Msg.child_frame_id u))) as [info|] eqn:G.
  - rewrite (@processTransform_tracked_eq (with_needUpdate None w) u info G),
            (processTransform_tracked_eq _ _ G). reflexivity.
  - rewrite (@processTransform_untracked_eq (with_needUpdate None w) u G),
            (processTransform_untracked_eq _ _ G). reflexivity.
Qed.

Lemma processFeedback_forget us : forall w,
  forget_needUpdate
    (Some (exec (processFeedback {| Msg.transforms := us |}) (with_needUpdate None w)))
  = forget_needUpdate (Some (exec (processFeedback {| Msg.transforms := us |}) w)).
Proof.
  induction us as [|u us IH]; intros w; [reflexivity|].
  rewrite !processFeedback_cons.
  pose proof (processTransform_forget w u) as H1.
  destruct (exec (processTransform u) (with_needUpdate None w)) as [w1 e1].
  destruct (exec (processTransform u) w) as [w1' e1'].
  unfold forget_needUpdate in H1.
  assert (Hw : with_needUpdate None w1 = with_needUpdate None w1') by congruence.
  assert (He : e1 = e1') by congruence. subst e1'. clear H1.
  pose proof (IH w1) as H2. pose proof (IH w1') as H2'.
  rewrite Hw in H2. rewrite H2' in H2.
  destruct (exec (processFeedback {| Msg.transforms := us |}) w1) as [w2 e2].
  destruct (exec (processFeedback {| Msg.transforms := us |}) w1') as [w2' e2'].
  unfold forget_needUpdate in *.
  assert (Hw2 : with_needUpdate None w2' = with_needUpdate None w2) by congruence.
  assert (He2 : e2' = e2) by congruence. now rewrite Hw2, He2.
Qed.

Lemma step_forget i w :
  forget_needUpdate (step i (with_needUpdate None w)) = forget_needUpdate (step i w).
Proof.
  destruct i as [f cb | f cb | | n response | t tf].
  - apply subscribe_forget.
  - apply unsubscribe_forget.
  - simpl. destruct (timers (env w)); [reflexivity|].
    rewrite !updateGoal_eq. reflexivity.
  - simpl. destruct (Nat.ltb n (length (calls (env w)))); [|reflexivity].
    rewrite !processResponse_eq. reflexivity.
  - simpl. change (is_listening (env (with_needUpdate None w)) t)
      with (is_listening (env w) t).
    destruct (is_listening (env w) t); [|reflexivity].
    destruct tf as [us]. apply processFeedback_forget.
Qed.

Lemma run_forget inputs : forall w1 w2,
  with_needUpdate None w1 = with_needUpdate None w2 ->
  forget_needUpdate (run inputs w1) = forget_needUpdate (run inputs w2).
Proof.
  induction inputs as [|i rest IH]; intros w1 w2 Hw.
  - simpl. now rewrite Hw.
  - rewrite !run_cons.
    pose proof (step_forget i w1) as H1. pose proof (step_forget i w2) as H2.
    rewrite Hw, H2 in H1.
    destruct (step i w1) as [[a1 e1]|]; destruct (step i w2) as [[a2 e2]|];
      try discriminate H1; [|reflexivity].
    unfold forget_needUpdate in H1.
    assert (Ha : with_needUpdate None a1 = with_needUpdate None a2) by congruence.
    assert (He : e1 = e2) by congruence. subst e2. clear H1.
    specialize (IH a1 a2 Ha).
    destruct (run rest a1) as [[b1 f1]|]; destruct (run rest a2) as [[b2 f2]|];
      try discriminate IH; [|reflexivity].
    unfold forget_needUpdate in *.
    assert (Hb : with_needUpdate None b1 = with_needUpdate None b2) by congruence.
    assert (Hf : f1 = f2) by congruence. now rewrite Hb, Hf.
Qed.

(** X11: the flag [needUpdate], which [unsubscribe] sets, is never read.
    Whatever its value, any sequence of events is possible or impossible
    alike, performs the same effects, and ends in the same world up to that
    flag: removing a callback never causes a request by itself. *)
Theorem needUpdate_is_never_read v inputs w :
  forget_needUpdate (run inputs (with_needUpdate v w))
    = forget_needUpdate (run inputs w).
Proof. apply run_forget. reflexivity. Qed.

(** ** The result of the constructor *)

Lemma or_num_truthy v d : Js.truthy_num v = true -> Js.or_num (Some v) d = v.
Proof. intros H. unfold Js.or_num. now rewrite H. Qed.

(** X13: [new TFClient(options)] raises exactly when no connection is
    given.  Otherwise the client keeps every option that is given and
    truthy, takes the default for every option that is absent, and starts
    with no frame, no stream, no scheduled request and [needUpdate] unset. *)
Theorem constructor_result options :
  (new_TFClient options = None
   <-> match options with Some o => Options.ros o = None | None => True end) /\
  forall o c,
    options = Some o ->
    new_TFClient options = Some c ->
    Options.ros o = Some (ros c) /\
    (forall v, Options.fixedFrame o = Some v -> v <> "" -> fixedFrame c = v) /\
    (forall v, Options.angularThres o = Some v -> Js.truthy_num v = true ->
       angularThres c = v) /\
    (forall v, Options.transThres o = Some v -> Js.truthy_num v = true ->
       transThres c = v) /\
    (forall v, Options.rate o = Some v -> Js.truthy_num v = true -> rate c = v) /\
    (forall v, Options.goalUpdateDelay o = Some v -> Js.truthy_num v = true ->
       goalUpdateDelay c = v) /\
    (forall v, Options.topicTimeout o = Some v -> Js.truthy_num v = true ->
       topicTimeout c
         = {| Msg.secs := Js.Math_floor v;
              Msg.nsecs := Js.Math_floor ((v - Js.Math_floor v) * 1000000000)%float |}) /\
    (Options.fixedFrame o = None -> fixedFrame c = "/base_link") /\
    (Options.angularThres o = None -> angularThres c = 2%float) /\
    (Options.transThres o = None -> transThres c = 0.01%float) /\
    (Options.rate o = None -> rate c = 10%float) /\
    (Options.goalUpdateDelay o = None -> goalUpdateDelay c = 50%float) /\
    (Options.topicTimeout o = None ->
       topicTimeout c = {| Msg.secs := 2; Msg.nsecs := 0 |}) /\
    frameInfos c = [] /\ currentTopic c = None /\
    goalUpdateRequested c = false /\ needUpdate c = None.
Proof.
  split.
  - unfold new_TFClient. destruct options as [o|]; simpl.
    + destruct (Options.ros o); split; congruence.
    + tauto.
  - intros o c -> H. unfold new_TFClient in H.
    destruct (Options.ros o) as [r|]; [|discriminate]. injection H as <-. simpl.
    split; [reflexivity|].
    split; [intros v -> Hv; destruct v; [contradiction | reflexivity]|].
    split; [intros v -> Hv; now apply or_num_truthy|].
    split; [intros v -> Hv; now apply or_num_truthy|].
    split; [intros v -> Hv; now apply or_num_truthy|].
    split; [intros v -> Hv; now apply or_num_truthy|].
    split; [intros v -> Hv; now rewrite (@or_num_truthy v _ Hv)|].
    repeat split; intros ->; reflexivity.
Qed.

Lemma constructor_result_witness :
  new_TFClient (Some custom_options) = Some custom_client /\
  fixedFrame custom_client = "/world" /\
  rate custom_client = 30%float /\
  topicTimeout custom_client = {| Msg.secs := 1; Msg.nsecs := 500000000 |}.
Proof.
  assert (H : new_TFClient (Some custom_options) = Some custom_client)
    by (vm_compute; reflexivity).
  destruct (@constructor_result (Some custom_options)) as [_ Hc].
  destruct (Hc custom_options custom_client eq_refl H)
    as [_ [Hf [_ [_ [Hr _]]]]].
  split; [exact H|].
  split; [apply (Hf "/world" eq_refl); discriminate|].
  split; [apply (Hr 30%float eq_refl); reflexivity | reflexivity].
Defined.


(** * The full model: inherited names, live arrays, callbacks that act *)

(** ** Where the full model agrees with the methods on own properties *)

Lemma full_subscribe_quiet invoke s frameID callback :
  quiet (Full.base s) (remove_leading_slash frameID) ->
  agrees (Full.subscribe invoke frameID callback s) s
         (exec (subscribe frameID callback) (Full.base s)).
Proof.
  unfold quiet, agrees. intros Hq.
  destruct (JsObject.get (frameInfos (this (Full.base s))) (remove_leading_slash frameID))
    as [info|] eqn:G.
  - rewrite (subscribe_tracked_eq _ _ _ G), Hq.
    unfold Full.subscribe, Full.seq, Full.bind, Full.get_state, Full.lookup.
    rewrite G, Hq. simpl. rewrite G. simpl. eexists. repeat split.
  - rewrite (subscribe_untracked_eq _ _ _ G).
    unfold Full.subscribe, Full.seq, Full.bind, Full.get_state, Full.lookup.
    rewrite G, Hq. simpl.
    destruct (goalUpdateRequested (this (Full.base s))) eqn:R; simpl;
      rewrite JsObjectFacts.get_set_same; simpl;
      rewrite JsObjectFacts.set_set; eexists; repeat split.
Qed.

Lemma full_unsubscribe_own_or_absent s frameID callback :
  Full.lookup s (remove_leading_slash frameID) <> Full.Inherited ->
  agrees (Full.unsubscribe frameID callback s) s
         (exec (unsubscribe frameID callback) (Full.base s)).
Proof.
  unfold agrees, Full.lookup. intros Hl.
  unfold Full.unsubscribe, Full.bind, Full.get_state, Full.lookup.
  destruct (JsObject.get (frameInfos (this (Full.base s))) (remove_leading_slash frameID))
    as [info|] eqn:G.
  - destruct (in_dec Nat.eq_dec callback (cbs info)) as [Hin | Hn].
    + rewrite (unsubscribe_registered_eq _ _ _ G Hin).
      destruct (indexOf_present _ _ Hin) as [Hge _].
      apply Z.leb_le in Hge. rewrite Hge. unfold unsubscribed_frames.
      destruct (Js.splice1 _ (cbs info)) as [|c0 l0]; simpl.
      * rewrite delete_set. eexists. repeat split.
      * eexists. repeat split.
    + rewrite (unsubscribe_unknown_eq _ _ _ G Hn), (indexOf_absent _ _ Hn).
      simpl. exists s. repeat split.
  - rewrite (unsubscribe_untracked_eq _ _ _ G).
    destruct (Full.inherited (remove_leading_slash frameID)); [contradiction|].
    exists s. repeat split.
Qed.

Lemma lift_exec m s :
  Full.lift m s
    = let '(w', e) := exec m (Full.base s) in Full.Val tt (Full.set_base s w') e.
Proof.
  unfold Full.lift, exec. destruct (m (Full.base s)) as [[[] b] e]. reflexivity.
Qed.

Lemma full_timer_fires body n s :
  Full.step body n TimerFires s
    = match step TimerFires (Full.base s) with
      | Some (w', e) => Full.Val tt (Full.set_base s w') e
      | None => Full.Halt Full.NotEnabled
      end.
Proof.
  simpl. destruct (timers (env (Full.base s))) as [|d rest]; [reflexivity|].
  rewrite lift_exec. simpl Full.base.
  destruct (exec updateGoal _) as [w' e]. reflexivity.
Qed.


(** ** Unsubscribing a name that every object inherits *)

Lemma full_unsubscribe_absent_noop body n s frameID callback :
  Full.lookup s (remove_leading_slash frameID) = Full.Undefined \/
  (exists info,
      Full.lookup s (remove_leading_slash frameID) = Full.Own info /\
      ~ In callback (cbs info)) ->
  Full.step body n (Unsubscribe frameID callback) s = Full.Val tt s [].
Proof.
  simpl. unfold Full.unsubscribe, Full.bind, Full.get_state.
  intros [-> | [info [-> Hn]]]; [reflexivity|].
  now rewrite (indexOf_absent _ _ Hn).
Qed.

(** C9: the claim fails on the code.  When the normalized frame id is not an
    own key of [frameInfos] but the name of a property every object inherits
    (such as "constructor"), [this.frameInfos[frameID]] is not [undefined],
    the guard of [unsubscribe] lets it through, and [info.cbs.indexOf] raises
    a TypeError: the call does not return. *)
Theorem unsubscribe_inherited_name_raises body n s frameID callback :
  Full.lookup s (remove_leading_slash frameID) = Full.Inherited ->
  Full.step body n (Unsubscribe frameID callback) s = Full.Exc s [].
Proof.
  simpl. unfold Full.unsubscribe, Full.bind, Full.get_state, Full.raise.
  now intros ->.
Qed.

Lemma unsubscribe_inherited_name_raises_witness :
  Full.lookup (Full.init fresh) (remove_leading_slash "constructor") = Full.Inherited /\
  Full.step Full.inert 0 (Unsubscribe "constructor" 1) (Full.init fresh)
    = Full.Exc (Full.init fresh) [].
Proof.
  split; [reflexivity|].
  apply (@unsubscribe_inherited_name_raises Full.inert 0 (Full.init fresh) "constructor" 1).
  reflexivity.
Defined.

(** ** Properties kept whatever the callbacks do *)

Section Keeps.
Variable I : Full.State -> Prop.
Variable Q : Effect -> Prop.

Lemma keeps_ret : keeps I Q (Full.ret tt).
Proof. intros s Hs. simpl. auto. Qed.

Lemma keeps_raise : keeps I Q Full.raise.
Proof. intros s Hs. simpl. auto. Qed.

Lemma keeps_halt r : keeps I Q (Full.halt r).
Proof. intros s Hs. exact Logic.I. Qed.

Lemma keeps_seq m k : keeps I Q m -> keeps I Q k -> keeps I Q (Full.seq m k).
Proof.
  intros Hm Hk s Hs. unfold Full.seq, Full.bind. specialize (Hm s Hs).
  destruct (m s) as [[] s1 e1 | s1 e1 | r]; [|exact Hm | exact Logic.I].
  destruct Hm as [H1 Q1]. specialize (Hk s1 H1).
  destruct (k s1) as [[] s2 e2 | s2 e2 | r]; [| |exact Logic.I];
    destruct Hk as [H2 Q2]; (split; [exact H2 | now apply Forall_app]).
Qed.

Lemma keeps_get (f : Full.State -> Full.Comp unit) :
  (forall s0, I s0 -> keeps I Q (f s0)) -> keeps I Q (Full.bind Full.get_state f).
Proof.
  intros Hf s Hs. unfold Full.bind, Full.get_state. specialize (Hf s Hs s Hs).
  destruct (f s s) as [[] s2 e2 | s2 e2 | r]; simpl; exact Hf.
Qed.

End Keeps.

(** ** While a request is scheduled no timer is set *)

Section Pending.

Let pending (s : Full.State) : Prop := goalUpdateRequested (this (Full.base s)) = true.
Let no_timer (e : Effect) : Prop := is_timeout e = false.

Lemma pending_write_frame k info : keeps pending no_timer (Full.write_frame k info).
Proof. intros s Hs. simpl. split; [exact Hs | constructor]. Qed.

Lemma pending_new_frame k : keeps pending no_timer (Full.new_frame k).
Proof. intros s Hs. simpl. split; [exact Hs | constructor]. Qed.

Lemma pending_delete_frame k : keeps pending no_timer (Full.delete_frame k).
Proof. intros s Hs. simpl. split; [exact Hs | constructor]. Qed.

Lemma pending_set_fn_transform k tr : keeps pending no_timer (Full.set_fn_transform k tr).
Proof. intros s Hs. simpl. split; [exact Hs | constructor]. Qed.

Lemma pending_needUpdate :
  keeps pending no_timer (Full.lift (update_this (fun c => set_needUpdate c (Some true)))).
Proof. intros s Hs. simpl. split; [exact Hs | constructor]. Qed.

Lemma pending_unsubscribe f cb : keeps pending no_timer (Full.unsubscribe f cb).
Proof.
  unfold Full.unsubscribe. apply keeps_get. intros s0 _.
  destruct (Full.lookup s0 _) as [info| |];
    [|apply keeps_raise | apply keeps_ret].
  destruct (0 <=? _)%Z; [|apply keeps_ret].
  apply keeps_seq; [apply pending_write_frame|].
  apply keeps_seq; [|apply pending_needUpdate].
  destruct (Nat.eqb _ 0); [apply pending_delete_frame | apply keeps_ret].
Qed.

Section WithInvoke.
Variable invoke : Callback -> Transform -> Full.Comp unit.
Hypothesis invoke_keeps : forall cb tr, keeps pending no_timer (invoke cb tr).

Lemma pending_subscribe f cb : keeps pending no_timer (Full.subscribe invoke f cb).
Proof.
  unfold Full.subscribe. apply keeps_seq; apply keeps_get; intros s0 H0.
  - destruct (Full.lookup s0 _) as [info| |].
    + destruct (transform info); [apply invoke_keeps | apply keeps_ret].
    + destruct (Full.inherited_transform s0 _); [apply invoke_keeps | apply keeps_ret].
    + apply keeps_seq; [apply pending_new_frame|].
      apply keeps_get. intros s1 H1. unfold pending in H1. rewrite H1. apply keeps_ret.
  - destruct (Full.lookup s0 _) as [info| |];
      [apply pending_write_frame | apply keeps_raise | apply keeps_raise].
Qed.

Lemma pending_perform calls : keeps pending no_timer (Full.perform invoke calls).
Proof.
  induction calls as [|[f cb | f cb |] rest IH]; simpl.
  - apply keeps_ret.
  - apply keeps_seq; [apply pending_subscribe | exact IH].
  - apply keeps_seq; [apply pending_unsubscribe | exact IH].
  - apply keeps_raise.
Qed.

End WithInvoke.

Lemma pending_call_back body n cb tr :
  keeps pending no_timer (Full.call_back body n cb tr).
Proof.
  revert cb tr. induction n as [|n IH]; intros cb tr; simpl.
  - apply keeps_halt.
  - apply keeps_seq; [|apply pending_perform; exact IH].
    intros s Hs. simpl. split; [exact Hs|]. repeat constructor.
Qed.

(** A [subscribe] that arrives while a request is scheduled sets no timer
    and leaves the request scheduled, whatever it calls and however it
    ends. *)
Lemma subscribe_while_pending body n s frameID callback :
  goalUpdateRequested (this (Full.base s)) = true ->
  match Full.step body n (Subscribe frameID callback) s with
  | Full.Val _ s' e | Full.Exc s' e =>
      goalUpdateRequested (this (Full.base s')) = true /\ timeouts e = 0
  | Full.Halt _ => True
  end.
Proof.
  intros Hs.
  pose proof (@pending_subscribe (Full.call_back body n)
                (pending_call_back body n) frameID callback s Hs) as H.
  simpl. destruct (Full.subscribe _ frameID callback s) as [[] s' e | s' e | r];
    [| |exact Logic.I]; destruct H as [H1 H2]; (split; [exact H1|]);
    unfold timeouts; clear -H2; induction H2 as [|x e Hx He IH];
    try reflexivity; simpl; unfold no_timer in Hx; rewrite Hx; exact IH.
Qed.

End Pending.

(** ** Coalescing in the full model *)

Lemma quiet_subscribe w f cb k :
  quiet w (remove_leading_slash f) -> quiet w k ->
  quiet (fst (exec (subscribe f cb) w)) k.
Proof.
  unfold quiet. intros Hf Hk.
  destruct (JsObject.get (frameInfos (this w)) (remove_leading_slash f))
    as [info|] eqn:G.
  - rewrite (subscribe_tracked_eq _ _ _ G). simpl.
    destruct (string_dec (remove_leading_slash f) k) as [<- | Hne].
    + rewrite JsObjectFacts.get_set_same. exact Hf.
    + now rewrite JsObjectFacts.get_set_other.
  - rewrite (subscribe_untracked_eq _ _ _ G).
    destruct (goalUpdateRequested (this w)); simpl;
      (destruct (string_dec (remove_leading_slash f) k) as [<- | Hne];
       [ now rewrite JsObjectFacts.get_set_same
       | now rewrite JsObjectFacts.get_set_other ]).
Qed.

Lemma quiet_subscribe_effects w f cb :
  quiet w (remove_leading_slash f) ->
  Forall (fun x => x = SetTimeout (goalUpdateDelay (this w)))
         (snd (exec (subscribe f cb) w)) /\
  goalUpdateDelay (this (fst (exec (subscribe f cb) w))) = goalUpdateDelay (this w).
Proof.
  unfold quiet. intros Hf.
  destruct (JsObject.get (frameInfos (this w)) (remove_leading_slash f))
    as [info|] eqn:G.
  - rewrite (subscribe_tracked_eq _ _ _ G), Hf. simpl. split; [constructor | reflexivity].
  - rewrite (subscribe_untracked_eq _ _ _ G).
    destruct (goalUpdateRequested (this w)); simpl; split;
      try reflexivity; repeat constructor.
Qed.

Lemma full_run_subscribes body n l : forall s,
  Forall (fun c => quiet (Full.base s) (remove_leading_slash (fst c))) l ->
  exists s' e,
    Full.run body n (subscribe_inputs l) s = Full.Val tt s' e /\
    run (subscribe_inputs l) (Full.base s) = Some (Full.base s', e) /\
    Forall (fun x => x = SetTimeout (goalUpdateDelay (this (Full.base s)))) e.
Proof.
  induction l as [|[f cb] l IH]; intros s Hq.
  - exists s, []. repeat split. constructor.
  - inversion Hq as [|? ? Hf Hl]; subst. simpl fst in Hf.
    destruct (full_subscribe_quiet (Full.call_back body n) s f cb Hf)
      as [s1 [Hx [Hb _]]].
    destruct (@quiet_subscribe_effects (Full.base s) f cb Hf) as [He Hd].
    assert (Hq1 : Forall (fun c => quiet (Full.base s1) (remove_leading_slash (fst c))) l).
    { rewrite Hb. eapply Forall_impl; [|exact Hl].
      intros c Hc. now apply quiet_subscribe. }
    destruct (IH s1 Hq1) as [s' [e [Hrun [Hcore He']]]].
    exists s', (snd (exec (subscribe f cb) (Full.base s)) ++ e).
    split; [|split].
    + simpl. unfold Full.seq, Full.bind. simpl in Hx. rewrite Hx, Hrun. reflexivity.
    + simpl subscribe_inputs. rewrite run_cons, step_subscribe.
      destruct (exec (subscribe f cb) (Full.base s)) as [w1 e1] eqn:E.
      simpl in Hb. subst w1. rewrite Hcore. reflexivity.
    + apply Forall_app. split; [exact He|].
      rewrite Hb, Hd in He'. exact He'.
Qed.

Lemma only_timeouts_once d e :
  Forall (fun x => x = SetTimeout d) e -> timeouts e = 1 -> e = [SetTimeout d].
Proof.
  intros H. destruct H as [|x e Hx He]; [discriminate|]. subst x.
  destruct He as [|y e Hy He]; [reflexivity|]. subst y. discriminate.
Qed.

Lemma undefined_quiet s k :
  Full.lookup s k = Full.Undefined ->
  quiet (Full.base s) k /\ JsObject.get (frameInfos (this (Full.base s))) k = None.
Proof.
  unfold Full.lookup, quiet.
  destruct (JsObject.get (frameInfos (this (Full.base s))) k); [discriminate|].
  destruct (Full.inherited k); [discriminate | auto].
Qed.

(** C1: with no request scheduled, a non-empty sequence of [subscribe] calls
    for frames that are not tracked yet ([this.frameInfos[frameID]] is
    undefined for each of them), made before the timer fires, schedules
    exactly one timer and does nothing else; when that timer fires exactly
    one request is issued, its [source_frames] holds every frame id of the
    sequence without its one leading slash, and no timer is left.  A
    [subscribe] that arrives while a request is scheduled never sets a
    timer, whatever the callbacks do. *)
Theorem new_frames_coalesce body n s l :
  goalUpdateRequested (this (Full.base s)) = false ->
  timers (env (Full.base s)) = [] ->
  l <> [] ->
  Forall (fun c => Full.lookup s (remove_leading_slash (fst c)) = Full.Undefined) l ->
  (exists s1 s2 request,
     Full.run body n (subscribe_inputs l) s
       = Full.Val tt s1 [SetTimeout (goalUpdateDelay (this (Full.base s)))] /\
     timers (env (Full.base s1)) = [goalUpdateDelay (this (Full.base s))] /\
     Full.step body n TimerFires s1
       = Full.Val tt s2 [CallService (serviceClient (this (Full.base s))) request] /\
     (forall name cb, In (String "/" name, cb) l -> In name (Msg.source_frames request)) /\
     (forall frameID cb, In (frameID, cb) l -> Js.starts_with_slash frameID = false ->
        In frameID (Msg.source_frames request)) /\
     timers (env (Full.base s2)) = [] /\
     Full.step body n TimerFires s2 = Full.Halt Full.NotEnabled) /\
  (forall s' frameID callback,
     goalUpdateRequested (this (Full.base s')) = true ->
     match Full.step body n (Subscribe frameID callback) s' with
     | Full.Val _ s1 e | Full.Exc s1 e =>
         goalUpdateRequested (this (Full.base s1)) = true /\ timeouts e = 0
     | Full.Halt _ => True
     end).
Proof.
  intros Hflag Htm Hne Hu. split; [|intros s' f cb; apply subscribe_while_pending].
  assert (Hq : Forall (fun c => quiet (Full.base s) (remove_leading_slash (fst c))) l).
  { eapply Forall_impl; [|exact Hu]. intros c Hc. now apply undefined_quiet. }
  assert (Hnew : existsb (untracked_in (Full.base s)) l = true).
  { destruct l as [|c l]; [contradiction|]. inversion Hu as [|? ? Hc _]; subst.
    simpl. unfold untracked_in, tracked.
    now rewrite (proj2 (undefined_quiet _ _ Hc)). }
  destruct (full_run_subscribes body n s Hq) as [s1 [e1 [Hrun [Hcore He1]]]].
  destruct (run_subscribes l (Full.base s))
    as [w1 [e1' [Hrun' [_ [_ [Ht [Htms [Hext Hall]]]]]]]].
  rewrite Hcore in Hrun'. injection Hrun' as <- <-.
  rewrite Hflag, Hnew in Ht, Htms. rewrite Htm in Htms. simpl in Htms.
  rewrite (only_timeouts_once He1 Ht) in Hrun.
  exists s1. eexists. exists (goal_request (this (Full.base s1))).
  split; [exact Hrun|]. split; [exact Htms|].
  split; [rewrite full_timer_fires, (timer_fires_eq _ Htms), (ext_service Hext);
          reflexivity|].
  split; [|split; [|split]].
  - intros name cb Hin. simpl. apply JsObjectFacts.in_for_in.
    exact (Hall _ Hin).
  - intros f cb Hin Hs. simpl. apply JsObjectFacts.in_for_in.
    pose proof (Hall _ Hin) as H. simpl in H.
    now rewrite (remove_leading_slash_other _ Hs) in H.
  - reflexivity.
  - reflexivity.
Qed.

Lemma new_frames_coalesce_witness :
  exists s1 s2 request,
    Full.run leaving 0
      (subscribe_inputs [("/odom", 1); ("map", 2); ("/wheel", 3)]) (Full.init fresh)
      = Full.Val tt s1 [SetTimeout (goalUpdateDelay (this (Full.base (Full.init fresh))))] /\
    timers (env (Full.base s1)) = [goalUpdateDelay (this (Full.base (Full.init fresh)))] /\
    Full.step leaving 0 TimerFires s1
      = Full.Val tt s2
          [CallService (serviceClient (this (Full.base (Full.init fresh)))) request] /\
    (forall name cb,
       In (String "/" name, cb) [("/odom", 1); ("map", 2); ("/wheel", 3)] ->
       In name (Msg.source_frames request)) /\
    (forall frameID cb,
       In (frameID, cb) [("/odom", 1); ("map", 2); ("/wheel", 3)] ->
       Js.starts_with_slash frameID = false -> In frameID (Msg.source_frames request)) /\
    timers (env (Full.base s2)) = [] /\
    Full.step leaving 0 TimerFires s2 = Full.Halt Full.NotEnabled.
Proof.
  apply (@new_frames_coalesce leaving 0 (Full.init fresh)
           [("/odom", 1); ("map", 2); ("/wheel", 3)]).
  - reflexivity.
  - reflexivity.
  - discriminate.
  - repeat constructor.
Defined.

(** ** Subscribing after the timer has fired, in the full model *)

(** C4, amended: a [subscribe] call for a frame that is not tracked yet
    ([this.frameInfos[frameID]] is undefined), arriving when no request is
    scheduled ([goalUpdateRequested] is false and no timer waits, as after
    the timer has fired, with the request in flight or a stream attached),
    schedules a timer with the configured delay and does nothing else; if
    that timer fires next, a request is issued whose [source_frames] holds
    the new frame and every frame tracked before.  Firing a timer clears
    [goalUpdateRequested] and leaves a request in flight. *)
Theorem late_subscribe_rearms body n s frameID callback :
  goalUpdateRequested (this (Full.base s)) = false ->
  timers (env (Full.base s)) = [] ->
  Full.lookup s (remove_leading_slash frameID) = Full.Undefined ->
  (exists s1 s2 request,
     Full.step body n (Subscribe frameID callback) s
       = Full.Val tt s1 [SetTimeout (goalUpdateDelay (this (Full.base s)))] /\
     goalUpdateRequested (this (Full.base s1)) = true /\
     Full.step body n TimerFires s1
       = Full.Val tt s2 [CallService (serviceClient (this (Full.base s))) request] /\
     In (remove_leading_slash frameID) (Msg.source_frames request) /\
     (forall k, In k (JsObject.keys (frameInfos (this (Full.base s)))) ->
        In k (Msg.source_frames request))) /\
  (forall s0 s' e,
     Full.step body n TimerFires s0 = Full.Val tt s' e ->
     goalUpdateRequested (this (Full.base s')) = false /\
     calls (env (Full.base s')) <> []).
Proof.
  intros Hflag Htm Hu. split.
  - destruct (undefined_quiet _ _ Hu) as [Hq G].
    destruct (full_subscribe_quiet (Full.call_back body n) s frameID callback Hq)
      as [s1 [Hx [Hb _]]].
    rewrite (subscribe_untracked_eq _ _ _ G), Hflag in Hx, Hb. simpl in Hx, Hb.
    exists s1. eexists. exists (goal_request (this (Full.base s1))).
    split; [exact Hx|]. split; [now rewrite Hb|].
    split; [rewrite full_timer_fires;
            erewrite timer_fires_eq by (rewrite Hb; simpl; rewrite Htm; reflexivity);
            rewrite Hb; reflexivity|].
    rewrite Hb. simpl. split.
    + apply JsObjectFacts.in_for_in.
      rewrite (JsObjectFacts.keys_set_new _ _ _ G). apply in_or_app. simpl. auto.
    + intros k Hk. apply JsObjectFacts.in_for_in.
      rewrite (JsObjectFacts.keys_set_new _ _ _ G). apply in_or_app. auto.
  - intros s0 s' e. rewrite full_timer_fires. simpl.
    destruct (timers (env (Full.base s0))) as [|d rest]; [discriminate|].
    rewrite updateGoal_eq. intros [= <- _]. simpl. split; [reflexivity|].
    intros E. now apply app_eq_nil in E as [_ E'].
Qed.

Lemma late_subscribe_rearms_witness :
  exists s1 s2 request,
    Full.step leaving 0 (Subscribe "b" 2) (Full.init in_flight_world)
      = Full.Val tt s1
          [SetTimeout (goalUpdateDelay (this (Full.base (Full.init in_flight_world))))] /\
    goalUpdateRequested (this (Full.base s1)) = true /\
    Full.step leaving 0 TimerFires s1
      = Full.Val tt s2
          [CallService (serviceClient (this (Full.base (Full.init in_flight_world))))
             request] /\
    In (remove_leading_slash "b") (Msg.source_frames request) /\
    (forall k,
       In k (JsObject.keys (frameInfos (this (Full.base (Full.init in_flight_world))))) ->
       In k (Msg.source_frames request)).
Proof.
  apply (@late_subscribe_rearms leaving 0 (Full.init in_flight_world) "b" 2).
  - vm_compute; reflexivity.
  - vm_compute; reflexivity.
  - vm_compute; reflexivity.
Defined.

(** ** Delivery of stream updates in the full model *)

Lemma nth_error_skipn (A : Type) (l : list A) i x :
  nth_error l i = Some x -> skipn i l = x :: skipn (S i) l.
Proof.
  revert i. induction l as [|y l IH]; intros [|i]; simpl; try discriminate.
  - now intros [= ->].
  - intros H. now rewrite (IH i H).
Qed.

Lemma nth_error_skipn_none (A : Type) (l : list A) i :
  nth_error l i = None -> skipn i l = [].
Proof.
  revert i. induction l as [|y l IH]; intros [|i]; simpl; try discriminate; auto.
Qed.

Lemma call_back_inert body n cb tr s :
  body cb tr = [] ->
  Full.call_back body (S n) cb tr s = Full.Val tt s [Invoke cb tr].
Proof.
  intros Hb. simpl. unfold Full.seq, Full.bind. rewrite Hb. reflexivity.
Qed.

Lemma forEach_live_inert body n k id tr rem : forall i s,
  (forall cb, In cb (Full.live_cbs s k id) -> body cb tr = []) ->
  Full.forEach_live (Full.call_back body (S n)) k id tr rem i s
    = Full.Val tt s
        (map (fun cb => Invoke cb tr) (firstn rem (skipn i (Full.live_cbs s k id)))).
Proof.
  induction rem as [|rem IH]; intros i s Hb; [reflexivity|].
  cbn [Full.forEach_live]. unfold Full.bind at 1, Full.get_state.
  destruct (nth_error (Full.live_cbs s k id) i) as [cb|] eqn:E.
  - rewrite (@nth_error_skipn _ _ _ _ E). unfold Full.seq, Full.bind.
    rewrite (@call_back_inert body n cb tr s (Hb cb (nth_error_In _ _ E))).
    rewrite (IH (S i) s Hb). reflexivity.
  - rewrite (IH (S i) s Hb).
    pose proof (@nth_error_skipn_none _ _ _ E) as H0.
    assert (H1 : skipn (S i) (Full.live_cbs s k id) = []).
    { apply nth_error_skipn_none. apply nth_error_None.
      apply nth_error_None in E. lia. }
    rewrite H0, H1. simpl. now destruct rem.
Qed.

Lemma full_processTransform_inert body n s u info :
  Full.lookup s (remove_leading_slash (Msg.child_frame_id u)) = Full.Own info ->
  (forall cb, In cb (cbs info) -> body cb (new_Transform (Msg.transform u)) = []) ->
  agrees (Full.processTransform (Full.call_back body (S n)) u s) s
         (exec (processTransform u) (Full.base s)).
Proof.
  unfold Full.lookup, agrees. intros Hl Hb.
  destruct (JsObject.get (frameInfos (this (Full.base s)))
              (remove_leading_slash (Msg.child_frame_id u))) as [info'|] eqn:G;
    [|destruct (Full.inherited _); discriminate].
  injection Hl as ->. rewrite (processTransform_tracked_eq _ _ G).
  unfold Full.processTransform, Full.bind at 1, Full.get_state, Full.lookup.
  rewrite G. unfold Full.seq, Full.bind, Full.write_frame. rewrite lift_exec.
  cbn [exec update_this fst snd].
  set (s1 := Full.set_base s _).
  assert (Hlive : Full.live_cbs s1 (remove_leading_slash (Msg.child_frame_id u))
                    (JsObject.get (Full.ids s) (remove_leading_slash (Msg.child_frame_id u)))
                  = cbs info).
  { unfold Full.live_cbs, s1. simpl. rewrite JsObjectFacts.get_set_same. simpl.
    destruct (JsObject.get (Full.ids s) _); [now rewrite Nat.eqb_refl | reflexivity]. }
  rewrite forEach_live_inert by (rewrite Hlive; exact Hb).
  rewrite Hlive. simpl skipn. rewrite firstn_all.
  exists s1. repeat split.
Qed.




(** ** Undoing a subscription, in the full model *)

Lemma full_run_cons body n i rest s :
  Full.run body n (i :: rest) s
    = match Full.step body n i s with
      | Full.Val _ s1 e1 =>
          match Full.run body n rest s1 with
          | Full.Val _ s2 e2 => Full.Val tt s2 (e1 ++ e2)
          | Full.Exc s2 e2 => Full.Exc s2 (e1 ++ e2)
          | Full.Halt r => Full.Halt r
          end
      | Full.Exc s1 e1 => Full.Exc s1 e1
      | Full.Halt r => Full.Halt r
      end.
Proof.
  simpl. unfold Full.seq, Full.bind.
  destruct (Full.step body n i s) as [[] s1 e1 | s1 e1 | r]; try reflexivity.
  destruct (Full.run body n rest s1) as [[] s2 e2 | s2 e2 | r]; reflexivity.
Qed.

(** The frame map and the effects after [subscribe] then [unsubscribe] of a
    callback for a frame that had no record. *)
Lemma full_subscribe_unsubscribe_new body n s frameID callback :
  Full.lookup s (remove_leading_slash frameID) = Full.Undefined ->
  exists s1 s2,
    Full.step body n (Subscribe frameID callback) s
      = Full.Val tt s1 (if goalUpdateRequested (this (Full.base s)) then []
                        else [SetTimeout (goalUpdateDelay (this (Full.base s)))]) /\
    Full.step body n (Unsubscribe frameID callback) s1 = Full.Val tt s2 [] /\
    frameInfos (this (Full.base s2)) = frameInfos (this (Full.base s)) /\
    goalUpdateRequested (this (Full.base s2)) = true /\
    timers (env (Full.base s2))
      = timers (env (Full.base s)) ++
          (if goalUpdateRequested (this (Full.base s)) then []
           else [goalUpdateDelay (this (Full.base s))]) /\
    config (this (Full.base s2)) = config (this (Full.base s)).
Proof.
  intros Hu. destruct (undefined_quiet _ _ Hu) as [Hq G].
  destruct (full_subscribe_quiet (Full.call_back body n) s frameID callback Hq)
    as [s1 [Hx [Hb _]]].
  rewrite (subscribe_untracked_eq _ _ _ G) in Hx, Hb.
  assert (G1 : JsObject.get (frameInfos (this (Full.base s1))) (remove_leading_slash frameID)
               = Some (subscribed_info None callback)).
  { rewrite Hb. destruct (goalUpdateRequested (this (Full.base s))); simpl;
      apply JsObjectFacts.get_set_same. }
  assert (Hl : Full.lookup s1 (remove_leading_slash frameID) <> Full.Inherited).
  { unfold Full.lookup. rewrite G1. discriminate. }
  destruct (full_unsubscribe_own_or_absent s1 frameID callback Hl) as [s2 [Hy [Hb2 _]]].
  assert (Hin : In callback (cbs (subscribed_info None callback))) by (simpl; auto).
  rewrite (unsubscribe_registered_eq _ _ _ G1 Hin) in Hy, Hb2.
  exists s1, s2. simpl Full.step.
  split; [destruct (goalUpdateRequested (this (Full.base s))); exact Hx|].
  split; [exact Hy|].
  rewrite Hb2. unfold unsubscribed_frames.
  cbn [this env frameInfos goalUpdateRequested set_needUpdate set_frameInfos
       cbs transform subscribed_info fst].
  rewrite splice1_indexOf by (simpl; auto). simpl remove_first.
  rewrite Nat.eqb_refl, Hb.
  destruct (goalUpdateRequested (this (Full.base s))) eqn:R; simpl;
    rewrite delete_set, (delete_absent _ _ G), ?app_nil_r; repeat split; assumption.
Qed.

(** X12: the timer is not cancelled.  With no request scheduled, subscribing
    a callback to a frame that is not tracked yet ([this.frameInfos[frameID]]
    is undefined) and unsubscribing it at once still lets the timer fire and
    send a request; that request names exactly the frames tracked before,
    the new frame not among them. *)
Theorem undone_subscription_still_requests body n s frameID callback :
  goalUpdateRequested (this (Full.base s)) = false ->
  timers (env (Full.base s)) = [] ->
  Full.lookup s (remove_leading_slash frameID) = Full.Undefined ->
  exists s' request,
    Full.run body n
      [Subscribe frameID callback; Unsubscribe frameID callback; TimerFires] s
      = Full.Val tt s' [SetTimeout (goalUpdateDelay (this (Full.base s)));
                        CallService (serviceClient (this (Full.base s))) request] /\
    Msg.source_frames request = JsObject.for_in (frameInfos (this (Full.base s))) /\
    ~ In (remove_leading_slash frameID) (Msg.source_frames request) /\
    frameInfos (this (Full.base s')) = frameInfos (this (Full.base s)).
Proof.
  intros Hflag Htm Hu.
  destruct (full_subscribe_unsubscribe_new body n s frameID callback Hu)
    as [s1 [s2 [H1 [H2 [Hf [Hg [Ht Hc]]]]]]].
  rewrite Hflag in H1, Ht. rewrite Htm in Ht. simpl in Ht.
  rewrite full_run_cons, H1. cbv beta iota.
  rewrite full_run_cons, H2. cbv beta iota.
  rewrite full_run_cons, full_timer_fires, (timer_fires_eq _ Ht). cbv beta iota.
  simpl Full.run. unfold Full.ret.
  injection Hc as _ _ _ _ _ _ _ Hs.
  eexists. exists (goal_request (this (Full.base s2))).
  split; [rewrite Hs; reflexivity|]. simpl. rewrite Hf.
  split; [reflexivity|]. split; [|reflexivity].
  rewrite JsObjectFacts.in_for_in, JsObjectFacts.get_in_keys.
  intros [v Hv]. destruct (undefined_quiet _ _ Hu) as [_ G]. congruence.
Qed.

Lemma undone_subscription_still_requests_witness :
  exists s' request,
    Full.run leaving 0 [Subscribe "/odom" 4; Unsubscribe "/odom" 4; TimerFires]
      (Full.init wheel_world)
      = Full.Val tt s'
          [SetTimeout (goalUpdateDelay (this (Full.base (Full.init wheel_world))));
           CallService (serviceClient (this (Full.base (Full.init wheel_world)))) request] /\
    Msg.source_frames request = ["wheel"].
Proof.
  destruct (@undone_subscription_still_requests leaving 0 (Full.init wheel_world) "/odom" 4)
    as [s' [request [Hrun [Hs _]]]].
  - vm_compute; reflexivity.
  - vm_compute; reflexivity.
  - vm_compute; reflexivity.
  - exists s', request. split; [exact Hrun|]. rewrite Hs. vm_compute. reflexivity.
Defined.

Lemma full_subscribe_own body n s frameID callback info :
  Full.lookup s (remove_leading_slash frameID) = Full.Own info ->
  (forall tr, transform info = Some tr -> body callback tr = []) ->
  agrees (Full.subscribe (Full.call_back body (S n)) frameID callback s) s
         (exec (subscribe frameID callback) (Full.base s)).
Proof.
  unfold Full.lookup, agrees. intros Hl Hb.
  destruct (JsObject.get (frameInfos (this (Full.base s))) (remove_leading_slash frameID))
    as [info'|] eqn:G; [|destruct (Full.inherited _); discriminate].
  injection Hl as ->. rewrite (subscribe_tracked_eq _ _ _ G).
  unfold Full.subscribe, Full.seq, Full.bind at 1.
  unfold Full.bind at 1, Full.get_state at 1, Full.lookup. rewrite G.
  destruct (transform info) as [tr|] eqn:T.
  - rewrite (@call_back_inert body n callback tr s (Hb tr eq_refl)).
    unfold Full.bind, Full.get_state. rewrite G. simpl. rewrite T.
    eexists. repeat split.
  - unfold Full.ret, Full.bind, Full.get_state. rewrite G. simpl. rewrite T.
    eexists. repeat split.
Qed.

(** X4: undoing a subscription.  Let the frame be untracked
    ([this.frameInfos[frameID]] is undefined), or tracked with at least one
    callback, [callback] not among them, and with no cached transform or a
    [callback] that does nothing to the client when called.  Then
    [subscribe] followed by [unsubscribe] of [callback] both return and leave
    the frame map exactly as it was; the timer that the subscription of an
    untracked frame scheduled is not cancelled. *)
Theorem subscribe_unsubscribe_restores body n s frameID callback :
  Full.lookup s (remove_leading_slash frameID) = Full.Undefined \/
  (exists info,
     Full.lookup s (remove_leading_slash frameID) = Full.Own info /\
     cbs info <> [] /\ ~ In callback (cbs info) /\
     (forall tr, transform info = Some tr -> body callback tr = [])) ->
  exists s1 s2 e,
    Full.step body (S n) (Subscribe frameID callback) s = Full.Val tt s1 e /\
    Full.step body (S n) (Unsubscribe frameID callback) s1 = Full.Val tt s2 [] /\
    frameInfos (this (Full.base s2)) = frameInfos (this (Full.base s)) /\
    timeouts e
      = (if goalUpdateRequested (this (Full.base s)) || tracked (Full.base s) frameID
         then 0 else 1) /\
    timers (env (Full.base s2)) = timers (env (Full.base s)) ++ filter_timeouts e.
Proof.
  intros [Hu | [info [Hl [Hne [Hn Hb]]]]].
  - destruct (full_subscribe_unsubscribe_new body (S n) s frameID callback Hu)
      as [s1 [s2 [H1 [H2 [Hf [_ [Ht _]]]]]]].
    exists s1, s2. eexists. split; [exact H1|]. split; [exact H2|].
    split; [exact Hf|]. unfold tracked.
    rewrite (proj2 (undefined_quiet _ _ Hu)), orb_false_r, Ht.
    destruct (goalUpdateRequested (this (Full.base s))); split; reflexivity.
  - destruct (full_subscribe_own body n s frameID callback Hl Hb) as [s1 [Hx [Hb1 _]]].
    unfold Full.lookup in Hl.
    destruct (JsObject.get (frameInfos (this (Full.base s))) (remove_leading_slash frameID))
      as [info'|] eqn:G; [|destruct (Full.inherited _); discriminate].
    injection Hl as ->. rewrite (subscribe_tracked_eq _ _ _ G) in Hx, Hb1.
    simpl in Hx, Hb1.
    assert (G1 : JsObject.get (frameInfos (this (Full.base s1))) (remove_leading_slash frameID)
                 = Some (subscribed_info (Some info) callback)).
    { rewrite Hb1. simpl. apply JsObjectFacts.get_set_same. }
    assert (Hl1 : Full.lookup s1 (remove_leading_slash frameID) <> Full.Inherited).
    { unfold Full.lookup. rewrite G1. discriminate. }
    destruct (full_unsubscribe_own_or_absent s1 frameID callback Hl1) as [s2 [Hy [Hb2 _]]].
    assert (Hin : In callback (cbs (subscribed_info (Some info) callback)))
      by (simpl; apply in_or_app; simpl; auto).
    rewrite (unsubscribe_registered_eq _ _ _ G1 Hin) in Hy, Hb2.
    exists s1, s2. eexists. split; [exact Hx|]. split; [exact Hy|].
    rewrite Hb2. unfold unsubscribed_frames, tracked.
    cbn [this env frameInfos set_needUpdate set_frameInfos cbs transform
         subscribed_info fst].
    rewrite splice1_indexOf by (apply in_or_app; simpl; auto).
    rewrite (@remove_first_last _ _ Hn), Hb1, G, orb_true_r.
    destruct info as [l tr]. simpl in *. destruct l as [|c l]; [contradiction|].
    simpl. rewrite JsObjectFacts.set_set, (set_same _ _ G).
    split; [reflexivity|]. destruct tr; simpl; rewrite app_nil_r; split; reflexivity.
Qed.

Lemma subscribe_unsubscribe_restores_witness :
  exists s1 s2 e,
    Full.step leaving 1 (Subscribe "/wheel" 4) (Full.init wheel_world) = Full.Val tt s1 e /\
    Full.step leaving 1 (Unsubscribe "/wheel" 4) s1 = Full.Val tt s2 [] /\
    frameInfos (this (Full.base s2)) = frameInfos (this (Full.base (Full.init wheel_world))) /\
    timeouts e
      = (if goalUpdateRequested (this (Full.base (Full.init wheel_world)))
            || tracked (Full.base (Full.init wheel_world)) "/wheel"
         then 0 else 1) /\
    timers (env (Full.base s2))
      = timers (env (Full.base (Full.init wheel_world))) ++ filter_timeouts e.
Proof.
  apply (@subscribe_unsubscribe_restores leaving 0 (Full.init wheel_world) "/wheel" 4).
  right.
  assert (G : exists info,
             Full.lookup (Full.init wheel_world) (remove_leading_slash "/wheel")
             = Full.Own info /\ cbs info = [1]).
  { eexists. split; vm_compute; reflexivity. }
  destruct G as [info [G C]]. exists info. split; [exact G|].
  rewrite C. split; [discriminate|]. split.
  - simpl. intros [H | []]. discriminate.
  - intros tr _. reflexivity.
Defined.

(** ** Callbacks that do nothing to the client *)

Lemma lookup_not_inherited s k :
  Full.lookup s k <> Full.Inherited <->
  (cbs_of (Full.base s) k <> None \/ Full.inherited k = false).
Proof.
  unfold Full.lookup, cbs_of.
  destruct (JsObject.get (frameInfos (this (Full.base s))) k).
  - split; [left|]; discriminate.
  - destruct (Full.inherited k); split.
    + intros H. now contradiction H.
    + intros [H | H]; [now contradiction H | discriminate].
    + now right.
    + discriminate.
Qed.

Lemma callbacks_of_cbs_of w k :
  callbacks_of w k = match cbs_of w k with Some l => l | None => [] end.
Proof. unfold callbacks_of, cbs_of. now destruct (JsObject.get _ _). Qed.

Lemma full_subscribe_inert body n s frameID callback :
  Full.lookup s (remove_leading_slash frameID) <> Full.Inherited ->
  (forall tr, body callback tr = []) ->
  agrees (Full.subscribe (Full.call_back body (S n)) frameID callback s) s
         (exec (subscribe frameID callback) (Full.base s)).
Proof.
  intros Hl Hb.
  destruct (Full.lookup s (remove_leading_slash frameID)) as [info| |] eqn:L.
  - apply (@full_subscribe_own body n s frameID callback info L). intros tr _. apply Hb.
  - now contradiction Hl.
  - apply full_subscribe_quiet. exact (proj1 (undefined_quiet _ _ L)).
Qed.

Lemma full_processTransform_total body n s u :
  Full.lookup s (remove_leading_slash (Msg.child_frame_id u)) <> Full.Inherited ->
  (forall cb,
     In cb (callbacks_of (Full.base s) (remove_leading_slash (Msg.child_frame_id u))) ->
     body cb (new_Transform (Msg.transform u)) = []) ->
  agrees (Full.processTransform (Full.call_back body (S n)) u s) s
         (exec (processTransform u) (Full.base s)).
Proof.
  intros Hl Hb.
  destruct (Full.lookup s (remove_leading_slash (Msg.child_frame_id u))) as [info| |] eqn:L.
  - apply (@full_processTransform_inert body n s u info L).
    unfold Full.lookup in L. unfold callbacks_of in Hb.
    destruct (JsObject.get (frameInfos (this (Full.base s)))
                (remove_leading_slash (Msg.child_frame_id u))) as [info'|];
      [|destruct (Full.inherited _); discriminate].
    injection L as ->. exact Hb.
  - now contradiction Hl.
  - destruct (undefined_quiet _ _ L) as [_ G].
    rewrite (processTransform_untracked_eq _ _ G).
    unfold Full.processTransform, Full.bind, Full.get_state. rewrite L.
    exists s. repeat split.
Qed.

Lemma full_processFeedback_inert body n us : forall s,
  (forall u, In u us ->
     Full.lookup s (remove_leading_slash (Msg.child_frame_id u)) <> Full.Inherited) ->
  (forall u cb, In u us ->
     In cb (callbacks_of (Full.base s) (remove_leading_slash (Msg.child_frame_id u))) ->
     body cb (new_Transform (Msg.transform u)) = []) ->
  agrees (Full.processFeedback (Full.call_back body (S n)) {| Msg.transforms := us |} s) s
         (exec (processFeedback {| Msg.transforms := us |}) (Full.base s)).
Proof.
  induction us as [|u us IH]; intros s Hl Hb.
  - exists s. repeat split.
  - destruct (@full_processTransform_total body n s u (Hl u (or_introl eq_refl))
                (fun cb => Hb u cb (or_introl eq_refl))) as [s1 [H1 [B1 F1]]].
    rewrite processFeedback_cons.
    pose proof (fun k => cbs_of_processTransform (Full.base s) u k) as Hc.
    destruct (exec (processTransform u) (Full.base s)) as [w1 e1].
    cbn [fst snd] in H1, B1, Hc.
    destruct (IH s1) as [s2 [H2 [B2 F2]]].
    + intros u' Hu'. apply lookup_not_inherited. rewrite B1, Hc.
      apply lookup_not_inherited. apply Hl. now right.
    + intros u' cb Hu'. rewrite callbacks_of_cbs_of, B1, Hc, <- callbacks_of_cbs_of.
      apply Hb. now right.
    + rewrite B1 in H2, B2.
      destruct (exec (processFeedback {| Msg.transforms := us |}) w1) as [w2 e2].
      cbn [fst snd] in H2, B2.
      unfold Full.processFeedback in *. cbn [Msg.transforms Full.processUpdates] in *.
      unfold Full.seq, Full.bind at 1. rewrite H1, H2.
      exists s2. split; [reflexivity|]. split; [exact B2|]. congruence.
Qed.

Lemma deliveries_callbacks_of w u :
  deliveries w u
    = map (fun cb => Invoke cb (new_Transform (Msg.transform u)))
          (callbacks_of w (remove_leading_slash (Msg.child_frame_id u))).
Proof.
  unfold deliveries. rewrite callbacks_of_cbs_of. now destruct (cbs_of _ _).
Qed.

Lemma full_run_repeat_subscribe body m frameID callback :
  (forall tr, body callback tr = []) ->
  forall n s,
    Full.lookup s (remove_leading_slash frameID) <> Full.Inherited ->
    exists s' e,
      Full.run body (S m) (repeat (Subscribe frameID callback) n) s = Full.Val tt s' e /\
      Full.lookup s' (remove_leading_slash frameID) <> Full.Inherited /\
      callbacks_of (Full.base s') (remove_leading_slash frameID)
        = callbacks_of (Full.base s) (remove_leading_slash frameID) ++ repeat callback n.
Proof.
  intros Hb. induction n as [|n IH]; intros s Hl.
  - exists s, []. split; [reflexivity|]. split; [exact Hl|]. now rewrite app_nil_r.
  - destruct (@full_subscribe_inert body m s frameID callback Hl Hb) as [s1 [H1 [B1 _]]].
    pose proof (subscribe_callbacks (Full.base s) frameID callback) as Hc.
    rewrite <- B1 in Hc.
    destruct (IH s1) as [s' [e [Hrun [Hl' Hcb]]]].
    { apply lookup_not_inherited. left. intros Hn.
      rewrite callbacks_of_cbs_of, Hn in Hc. symmetry in Hc.
      now apply app_eq_nil in Hc. }
    cbn [repeat]. rewrite full_run_cons.
    change (Full.step body (S m) (Subscribe frameID callback) s)
      with (Full.subscribe (Full.call_back body (S m)) frameID callback s).
    rewrite H1, Hrun. eexists. eexists. split; [reflexivity|]. split; [exact Hl'|].
    rewrite Hcb, Hc, <- app_assoc. reflexivity.
Qed.

(** X3: [subscribe] does not deduplicate.  Let [callback] do nothing to the
    client when called, and let [frameID] minus its leading slash not be the
    name of an inherited property that [this.frameInfos] lacks.  After [n]
    calls [subscribe(frameID, callback)] the callback is registered [n] more
    times, behind the callbacks the frame already had; and an update of the
    frame, when those earlier callbacks do nothing to the client either,
    calls every callback once per registration, in that order. *)
Theorem subscribe_registers_again body m n s frameID callback :
  Full.lookup s (remove_leading_slash frameID) <> Full.Inherited ->
  (forall tr, body callback tr = []) ->
  exists s' e,
    Full.run body (S m) (repeat (Subscribe frameID callback) n) s = Full.Val tt s' e /\
    callbacks_of (Full.base s') (remove_leading_slash frameID)
      = callbacks_of (Full.base s) (remove_leading_slash frameID) ++ repeat callback n /\
    forall u,
      remove_leading_slash (Msg.child_frame_id u) = remove_leading_slash frameID ->
      (forall cb,
         In cb (callbacks_of (Full.base s) (remove_leading_slash frameID)) ->
         body cb (new_Transform (Msg.transform u)) = []) ->
      exists s'',
        Full.processTransform (Full.call_back body (S m)) u s'
          = Full.Val tt s''
              (map (fun cb => Invoke cb (new_Transform (Msg.transform u)))
                   (callbacks_of (Full.base s) (remove_leading_slash frameID)
                    ++ repeat callback n)).
Proof.
  intros Hl Hb.
  destruct (@full_run_repeat_subscribe body m frameID callback Hb n s Hl)
    as [s' [e [Hrun [Hl' Hcb]]]].
  exists s', e. split; [exact Hrun|]. split; [exact Hcb|].
  intros u Hu Hold.
  destruct (@full_processTransform_total body m s' u) as [s'' [Hx _]].
  - rewrite Hu. exact Hl'.
  - rewrite Hu, Hcb. intros cb Hin. apply in_app_or in Hin. destruct Hin as [Hin | Hin].
    + now apply Hold.
    + apply repeat_spec in Hin. subst cb. apply Hb.
  - exists s''. rewrite Hx, processTransform_effects, deliveries_callbacks_of, Hu, Hcb.
    reflexivity.
Qed.

Lemma subscribe_registers_again_witness :
  exists s' e,
    Full.run leaving 1 (repeat (Subscribe "/odom" 4) 3) (Full.init wheel_world)
      = Full.Val tt s' e /\
    callbacks_of (Full.base s') (remove_leading_slash "/odom")
      = callbacks_of (Full.base (Full.init wheel_world)) (remove_leading_slash "/odom")
        ++ repeat 4 3.
Proof.
  destruct (@subscribe_registers_again leaving 0 3 (Full.init wheel_world) "/odom" 4)
    as [s' [e [Hrun [Hcb _]]]].
  - vm_compute. discriminate.
  - intros tr. reflexivity.
  - exists s', e. split; [exact Hrun | exact Hcb].
Defined.

(** X5: a stream message whose updates name no inherited property that
    [this.frameInfos] lacks, and whose callbacks do nothing to the client,
    is processed to its end and changes nothing but cached transforms: the
    environment, the configuration, the flags, the tracked frames and their
    callbacks stay as they were.  Each update calls the callbacks of its
    frame, in order.  Afterwards every tracked frame named by the message
    caches the transform of the last update that names it, and the other
    frames keep their cached transform. *)
Theorem stream_message_caches_last body n s tf :
  (forall u, In u (Msg.transforms tf) ->
     Full.lookup s (remove_leading_slash (Msg.child_frame_id u)) <> Full.Inherited) ->
  (forall u cb, In u (Msg.transforms tf) ->
     In cb (callbacks_of (Full.base s) (remove_leading_slash (Msg.child_frame_id u))) ->
     body cb (new_Transform (Msg.transform u)) = []) ->
  exists s',
    Full.processFeedback (Full.call_back body (S n)) tf s
      = Full.Val tt s' (flat_map (deliveries (Full.base s)) (Msg.transforms tf)) /\
    same_but_cached (Full.base s) (Full.base s') /\
    forall k,
      cached (Full.base s') k
        = match JsObject.get (frameInfos (this (Full.base s))) k,
                last_update k (Msg.transforms tf) with
          | Some _, Some p => Some (new_Transform p)
          | _, _ => cached (Full.base s) k
          end.
Proof.
  destruct tf as [us]. cbn [Msg.transforms]. intros Hl Hb.
  destruct (@full_processFeedback_inert body n us s Hl Hb) as [s' [Hx [B _]]].
  destruct (processFeedback_frame us (Full.base s)) as [Hs Hc].
  exists s'. rewrite Hx, processFeedback_effects, B.
  split; [reflexivity|]. split; assumption.
Qed.

Lemma stream_message_caches_last_witness :
  exists s',
    Full.processFeedback (Full.call_back leaving 1) {| Msg.transforms := [wheel_update] |}
      (Full.init (play [Subscribe "wheel" 2] fresh))
      = Full.Val tt s'
          (flat_map (deliveries (Full.base (Full.init (play [Subscribe "wheel" 2] fresh))))
             (Msg.transforms {| Msg.transforms := [wheel_update] |})) /\
    cached (Full.base s') "wheel" = Some wheel_transform.
Proof.
  destruct (@stream_message_caches_last leaving 0
              (Full.init (play [Subscribe "wheel" 2] fresh))
              {| Msg.transforms := [wheel_update] |}) as [s' [Hx [_ Hc]]].
  - intros u [<- | []]. vm_compute. discriminate.
  - intros u cb [<- | []] Hin. vm_compute in Hin. destruct Hin as [<- | []]. reflexivity.
  - exists s'. split; [exact Hx|]. rewrite Hc. vm_compute. reflexivity.
Defined.
